(** * The one-wire split protocol of ZMK: a shallow embedding

    Sources:
    - [app/src/split/onewire/onewire_peripheral.c]  (the transmitter)
    - the central's file, same prologue, with [onewire_cb]  (the receiver)

    Bytes ([u8_t]) are integers of [Z] in [0, 256); a store into a [u8_t]
    lvalue is written [u8]. The GPIO line, the busy-wait, the interrupt
    controller, the log and the event bus are Zephyr's: the embedding keeps
    them as the operations of a small state-and-trace monad, so that what a
    function does to the line can be read off its trace. *)

From stdpp Require Import base numbers list list_numbers sorting strings.

Local Open Scope Z_scope.

(** ** Constants of the prologue (lines 41-44 and 68 of both files) *)

(** [#define HALF_PERIOD_US (ONE_PERIOD_US / 2)], as a function of the value
    given to [ONE_PERIOD_US]: the division is C's, on [int], and truncates
    towards zero. *)
Definition HALF_PERIOD_US_of (one_period_us : Z) : Z := one_period_us `quot` 2.

(** The argument of the receiver's first [k_busy_wait] (line 94 of the
    central): [ONE_PERIOD_US + HALF_PERIOD_US]. *)
Definition sample_offset_of (one_period_us : Z) : Z :=
  one_period_us + HALF_PERIOD_US_of one_period_us.

Definition ONE_PERIOD_US : Z := 50.
Definition HALF_PERIOD_US : Z := HALF_PERIOD_US_of ONE_PERIOD_US.
Definition FRAMING_SYMBOL : Z := 0x55.
Definition POSITION_STATE_DATA_LEN : Z := 16.

(** [sizeof(byte)] for [u8_t byte], and [sizeof(position_state)] for
    [u8_t position_state[POSITION_STATE_DATA_LEN]]: C counts bytes. *)
Definition sizeof_u8 : Z := 1.
Definition sizeof_position_state : Z := POSITION_STATE_DATA_LEN * sizeof_u8.

(** Conversion to [u8_t]. *)
Definition u8 (x : Z) : Z := x `mod` 256.

(** Zephyr's [BIT(n)] and [WRITE_BIT(var, bit, set)] of [sys/util.h]:
    [((var) = (set) ? ((var) | BIT(bit)) : ((var) & ~BIT(bit)))]. The value
    computed is returned here; the store is the caller's. *)
Definition BIT (n : Z) : Z := 1 ≪ n.
Definition WRITE_BIT (var bit : Z) (set : bool) : Z :=
  if set then Z.lor var (BIT bit) else Z.land var (Z.lnot (BIT bit)).

(** ** The board: memory and environment *)

Inductive gpio_int_mode : Set :=
| GPIO_INT_DISABLE
| GPIO_INT_EDGE_TO_INACTIVE.

(** [struct position_state_changed], as [onewire_cb] fills it. *)
Record position_state_changed : Set := mk_position_state_changed {
  position : Z;
  state : bool;
  timestamp : Z
}.

(** What a function does to its environment, in order. *)
Inductive io : Set :=
| PinSet (value : Z)                     (* gpio_pin_set *)
| PinGet (value : Z)                     (* gpio_pin_get, with what it returned *)
| BusyWait (usec : Z)                    (* k_busy_wait *)
| IntConfigure (mode : gpio_int_mode)    (* gpio_pin_interrupt_configure *)
| Log (msg : string) (arg : Z)           (* log, LOG_DBG *)
| EventRaise (ev : position_state_changed). (* ZMK_EVENT_RAISE *)

(** The static [position_state], and what the environment holds:
    - [stray_writes]: byte indices written through [position_state[i]] with
      [i] outside the array. C leaves such a store undefined; the array has
      no byte there, so the model leaves the array alone and records the index;
    - [line_in]: the levels [gpio_pin_get] will return, one per call; a line
      nobody drives any more is pulled high (header comment, line 16);
    - [int_mode]: how the pin's interrupt is configured;
    - [uptime_us]: the clock, which [k_busy_wait] advances. *)
Record board : Type := mk_board {
  position_state : list Z;
  stray_writes : list Z;
  line_in : list Z;
  int_mode : gpio_int_mode;
  uptime_us : Z
}.

Definition set_position_state (f : list Z → list Z) (s : board) : board :=
  mk_board (f (position_state s)) (stray_writes s) (line_in s) (int_mode s) (uptime_us s).
Definition set_stray_writes (f : list Z → list Z) (s : board) : board :=
  mk_board (position_state s) (f (stray_writes s)) (line_in s) (int_mode s) (uptime_us s).
Definition set_line_in (l : list Z) (s : board) : board :=
  mk_board (position_state s) (stray_writes s) l (int_mode s) (uptime_us s).
Definition set_int_mode (m : gpio_int_mode) (s : board) : board :=
  mk_board (position_state s) (stray_writes s) (line_in s) m (uptime_us s).
Definition set_uptime_us (t : Z) (s : board) : board :=
  mk_board (position_state s) (stray_writes s) (line_in s) (int_mode s) t.

(** ** The monad: a state of type [board], and the trace written so far *)

Definition M (A : Type) : Type := board → A * board * list io.

Global Instance M_ret : MRet M := λ A a s, (a, s, []).
Global Instance M_bind : MBind M := λ A B k m s,
  let '(a, s1, t1) := m s in
  let '(b, s2, t2) := k a s1 in
  (b, s2, t1 ++ t2).

Definition result {A} (r : A * board * list io) : A := r.1.1.
Definition final {A} (r : A * board * list io) : board := r.1.2.
Definition trace {A} (r : A * board * list io) : list io := r.2.

(** *** Zephyr's primitives *)

Definition gpio_pin_set (value : Z) : M unit := λ s, (tt, s, [PinSet value]).

(** [gpio_pin_get]: the next level of [line_in]. Zephyr's returns 0, 1 or a
    negative error number; the model hands out whatever integer the list
    holds. *)
Definition gpio_pin_get : M Z := λ s,
  match line_in s with
  | [] => (1, s, [PinGet 1])
  | v :: rest => (v, set_line_in rest s, [PinGet v])
  end.

Definition k_busy_wait (usec : Z) : M unit := λ s,
  (tt, set_uptime_us (uptime_us s + usec) s, [BusyWait usec]).

(** [k_uptime_get()]: milliseconds since boot. *)
Definition k_uptime_get : M Z := λ s, (uptime_us s `div` 1000, s, []).

Definition gpio_pin_interrupt_configure (mode : gpio_int_mode) : M unit := λ s,
  (tt, set_int_mode mode s, [IntConfigure mode]).

Definition log (msg : string) (arg : Z) : M unit := λ s, (tt, s, [Log msg arg]).

Definition ZMK_EVENT_RAISE (ev : position_state_changed) : M unit := λ s,
  (tt, s, [EventRaise ev]).

(** *** The array [position_state] *)

Definition in_bounds (i : Z) (l : list Z) : bool :=
  bool_decide (0 ≤ i < Z.of_nat (length l)).

(** [position_state[i]], read. *)
Definition load_position_state (i : Z) : M Z := λ s,
  (default 0 (position_state s !! Z.to_nat i), s, []).

(** [position_state[i] = f(position_state[i])]. *)
Definition modify_position_state (i : Z) (f : Z → Z) : M unit := λ s,
  if in_bounds i (position_state s)
  then (tt, set_position_state (alter (λ b, u8 (f b)) (Z.to_nat i)) s, [])
  else (tt, set_stray_writes (λ w, w ++ [i]) s, []).

Definition store_position_state (i : Z) (v : Z) : M unit :=
  modify_position_state i (λ _, v).

(** *** [for (int i = 0; i < bound; ++i) body] *)

Fixpoint for_loop (n : nat) (i : Z) (body : Z → M unit) : M unit :=
  match n with
  | O => mret tt
  | S n' => body i;; for_loop n' (i + 1) body
  end.

Definition for_upto (bound : Z) (body : Z → M unit) : M unit :=
  for_loop (Z.to_nat bound) 0 body.

(** ** Peripheral functions (onewire_peripheral.c) *)

(** The loop of [onewire_send_byte] (lines 78-82), [n] rounds left. *)
Fixpoint send_bits (n : nat) (byte : Z) : M unit :=
  match n with
  | O => mret tt
  | S n' =>
      gpio_pin_set (Z.land byte 1);;
      let byte := byte ≫ 1 in
      k_busy_wait ONE_PERIOD_US;;
      send_bits n' byte
  end.

(** [onewire_send_byte] (lines 77-83): the loop runs while
    [i < sizeof(byte)]. *)
Definition onewire_send_byte (byte : Z) : M unit :=
  send_bits (Z.to_nat sizeof_u8) byte.

(** The loop of [onewire_read_byte] (lines 87-95 of the peripheral, 76-84 of
    the central), [n] rounds left, at index [i]. *)
Fixpoint read_bits (n : nat) (i : Z) (byte : Z) : M Z :=
  match n with
  | O => mret byte
  | S n' =>
      pin_value ← gpio_pin_get;
      byte ← (if bool_decide (0 ≤ pin_value)
              then mret (u8 (Z.lor byte (pin_value ≪ i)))
              else log "Pin read error: %d" pin_value;; mret byte);
      k_busy_wait ONE_PERIOD_US;;
      read_bits n' (i + 1) byte
  end.

(** [onewire_read_byte] (lines 85-97 of the peripheral, 74-86 of the
    central). *)
Definition onewire_read_byte : M Z :=
  read_bits (Z.to_nat sizeof_u8) 0 0.

(** [onewire_start_transmission] (lines 99-102). *)
Definition onewire_start_transmission (length : Z) : M unit :=
  onewire_send_byte FRAMING_SYMBOL;;
  onewire_send_byte length.

(** [onewire_end_transmission] (lines 104-106). *)
Definition onewire_end_transmission : M unit :=
  gpio_pin_set 1.

(** [send_onewire_data(position_state, length)] (lines 108-115): [data] is
    always the static array. *)
Definition send_onewire_data (length : Z) : M unit :=
  onewire_start_transmission length;;
  for_upto length (λ i, b ← load_position_state i; onewire_send_byte b);;
  onewire_end_transmission.

(** [zmk_split_onewire_position_pressed] (lines 117-120); [position] is a
    [u8_t]. Nothing is returned: the body has no [return]. *)
Definition zmk_split_onewire_position_pressed (position : Z) : M unit :=
  modify_position_state (position `quot` 8)
    (λ var, WRITE_BIT var (position `rem` 8) true);;
  send_onewire_data sizeof_position_state.

(** [zmk_split_onewire_position_released] (lines 122-125). *)
Definition zmk_split_onewire_position_released (position : Z) : M unit :=
  modify_position_state (position `quot` 8)
    (λ var, WRITE_BIT var (position `rem` 8) false);;
  send_onewire_data sizeof_position_state.

(** ** Central functions (the file with [onewire_cb]) *)

(** Cell [i] of a byte array; past its end the model reads 0. This is
    [((u8_t * )data)[i]] of lines 106-107: [onewire_cb] reads a buffer [data]
    that it never declares, and the embedding takes it as the callback's
    argument, the bitmap handed to the diff. *)
Definition data_at (data : list Z) (i : Z) : Z := default 0 (data !! Z.to_nat i).

(** Lines 94-103 of [onewire_cb]: the wait, the length, the payload. The
    value of the local [data_length] is returned. *)
Definition onewire_cb_receive : M Z :=
  k_busy_wait (ONE_PERIOD_US + HALF_PERIOD_US);;
  data_length ← onewire_read_byte;
  (if bool_decide (data_length < sizeof_position_state)
   then for_upto data_length (λ i, b ← onewire_read_byte; store_position_state i b)
   else log "Error, data length was too long: %d" data_length);;
  mret data_length.

(** Lines 105-108: the loop that fills the local [changed_positions] and
    overwrites [position_state], [n] rounds left, at index [i]. *)
Fixpoint update_loop (data : list Z) (n : nat) (i : Z) (changed_positions : list Z)
  : M (list Z) :=
  match n with
  | O => mret changed_positions
  | S n' =>
      old ← load_position_state i;
      let changed_positions :=
        <[Z.to_nat i := u8 (Z.lxor (data_at data i) old)]> changed_positions in
      store_position_state i (data_at data i);;
      update_loop data n' (i + 1) changed_positions
  end.

(** The local array starts out with whatever the stack holds; each of its
    cells is written before it is read, and the model starts it at zero. *)
Definition onewire_cb_update (data : list Z) : M (list Z) :=
  update_loop data (Z.to_nat POSITION_STATE_DATA_LEN) 0
    (replicate (Z.to_nat POSITION_STATE_DATA_LEN) 0).

(** Lines 112-122: the body of the inner loop, for byte [i] and bit [j]. *)
Definition onewire_cb_raise_bit (changed_positions : list Z) (i j : Z) : M unit :=
  if bool_decide (Z.land (data_at changed_positions i) (BIT j) ≠ 0)
  then
    let position := i * 8 + j in
    b ← load_position_state i;
    let pressed := bool_decide (Z.land b (BIT j) ≠ 0) in
    now ← k_uptime_get;
    let pos_ev := mk_position_state_changed position pressed now in
    log "Trigger key position state change for %d" position;;
    ZMK_EVENT_RAISE pos_ev
  else mret tt.

(** Lines 110-124: one event per bit set in [changed_positions]. *)
Definition onewire_cb_raise (changed_positions : list Z) : M unit :=
  for_upto POSITION_STATE_DATA_LEN (λ i,
    for_upto 8 (onewire_cb_raise_bit changed_positions i)).

(** Lines 105-124: the diff of [data] against [position_state], and its
    events. *)
Definition onewire_cb_diff (data : list Z) : M unit :=
  changed_positions ← onewire_cb_update data;
  onewire_cb_raise changed_positions.

(** [onewire_cb] (lines 89-127). *)
Definition onewire_cb (data : list Z) : M unit :=
  gpio_pin_interrupt_configure GPIO_INT_DISABLE;;
  onewire_cb_receive;;
  onewire_cb_diff data;;
  gpio_pin_interrupt_configure GPIO_INT_EDGE_TO_INACTIVE.

(** ** Reading a trace, and bitmaps *)

(** The levels driven onto the line, in order. *)
Definition driven (t : list io) : list Z :=
  t ≫= λ op, match op with PinSet v => [v] | _ => [] end.

(** The levels sampled from the line, in order. *)
Definition sampled (t : list io) : list Z :=
  t ≫= λ op, match op with PinGet v => [v] | _ => [] end.

(** The events handed to the event bus, in order. *)
Definition raised (t : list io) : list position_state_changed :=
  t ≫= λ op, match op with EventRaise ev => [ev] | _ => [] end.

Definition is_int_configure (op : io) : bool :=
  match op with IntConfigure _ => true | _ => false end.

(** Bit [p] of a bitmap: byte [p / 8], bit [p % 8]. *)
Definition bitmap_bit (bm : list Z) (p : Z) : bool :=
  Z.testbit (data_at bm (p `div` 8)) (p `mod` 8).

(** A bitmap of the fixed capacity: 16 bytes. *)
Definition is_bitmap (bm : list Z) : Prop :=
  length bm = Z.to_nat POSITION_STATE_DATA_LEN ∧ Forall (λ b, 0 ≤ b < 256) bm.

(** The board after [onewire_init]: statics zeroed, interrupt armed, the line
    idle. *)
Definition board_init : board :=
  mk_board (replicate (Z.to_nat POSITION_STATE_DATA_LEN) 0) [] []
    GPIO_INT_EDGE_TO_INACTIVE 0.

(** The trace of [onewire_send_byte byte]: it does not depend on the board. *)
Definition byte_trace (byte : Z) : list io :=
  trace (onewire_send_byte byte board_init).

(** A frame as [send_onewire_data] lays it out: start symbol, length,
    payload in array order, and the line released high. *)
Definition frame_trace (len : Z) (payload : list Z) : list io :=
  byte_trace FRAMING_SYMBOL ++ byte_trace len ++ (payload ≫= byte_trace) ++ [PinSet 1].

(** The positions at which two bitmaps differ, in ascending order. *)
Definition differing (old new : list Z) : list Z :=
  filter (λ p, bitmap_bit old p ≠ bitmap_bit new p)
         (seqZ 0 (8 * POSITION_STATE_DATA_LEN)).

(** A receiver run on the levels a transmitter drove, taken in the order
    driven, one per sample. *)
Definition loopback {A} (m : M A) (tx : list io) : A * board * list io :=
  m (set_line_in (driven tx) board_init).

(** A computation keeps the projection [f] of the board. *)
Definition keeps {X A} (f : board → X) (m : M A) : Prop :=
  ∀ s, f (final (m s)) = f s.

(** Every operation of a computation's trace satisfies [P]. *)
Definition emits {A} (P : io → Prop) (m : M A) : Prop :=
  ∀ s, Forall P (trace (m s)).

(** A byte sent by [onewire_send_byte] and read back by
    [onewire_read_byte]. *)
Definition onewire_roundtrip (byte : Z) : Z :=
  result (loopback onewire_read_byte (trace (onewire_send_byte byte board_init))).

(** The same with both loops run for [n] rounds. *)
Definition roundtrip_rounds (n : nat) (byte : Z) : Z :=
  result (loopback (read_bits n 0 0) (trace (send_bits n byte board_init))).

(** Between the boards [s] and [s'], bit [p] of the bitmap took the value [v]
    and nothing else moved: no store outside the array, every other bit and
    every other byte as before. *)
Definition writes_only_bit (p : Z) (v : bool) (s s' : board) : Prop :=
  stray_writes s' = stray_writes s
  ∧ is_bitmap (position_state s')
  ∧ (∀ q, 0 ≤ q < 128 →
       bitmap_bit (position_state s') q =
       if bool_decide (q = p) then v else bitmap_bit (position_state s) q)
  ∧ (∀ i, 0 ≤ i → i ≠ p `div` 8 →
       data_at (position_state s') i = data_at (position_state s) i).

(** An operation other than [gpio_pin_interrupt_configure]. *)
Definition leaves_interrupt (op : io) : Prop := is_int_configure op = false.

(** A sample, a wait or a log entry: what reception is made of. *)
Definition samples_waits_or_logs (op : io) : Prop :=
  match op with PinGet _ | BusyWait _ | Log _ _ => True | _ => False end.

(** The level the next [gpio_pin_get] returns. *)
Definition pin_level (s : board) : Z := default 1 (head (line_in s)).

(** The part of the board that the line operations leave alone. *)
Definition memory (s : board) : list Z * list Z := (position_state s, stray_writes s).

(** Either entry point of the header [onewire.h], by the state it reports:
    [zmk_split_onewire_position_pressed] for [true],
    [zmk_split_onewire_position_released] for [false]. *)
Definition zmk_split_onewire_position (pressed : bool) (position : Z) : M unit :=
  if pressed then zmk_split_onewire_position_pressed position
  else zmk_split_onewire_position_released position.

(** The microseconds a trace spends in [k_busy_wait]. *)
Definition waited (t : list io) : Z :=
  foldr (λ op acc, match op with BusyWait usec => usec + acc | _ => acc end) 0 t.

(** A computation whose clock moves by what its trace waits. *)
Definition timed {A} (m : M A) : Prop :=
  ∀ s, uptime_us (final (m s)) = uptime_us s + waited (trace (m s)).

(** A level driven or a wait: what a transmission is made of. *)
Definition drives_or_waits (op : io) : Prop :=
  match op with PinSet _ | BusyWait _ => True | _ => False end.

(** A log entry or an event: what the diff is made of. *)
Definition logs_or_raises (op : io) : Prop :=
  match op with Log _ _ | EventRaise _ => True | _ => False end.

(** The test of line 112 and the event of lines 113-118, by position. *)
Definition changed_at (changed_positions : list Z) (p : Z) : Prop :=
  Z.land (data_at changed_positions (p `div` 8)) (BIT (p `mod` 8)) ≠ 0.
Definition event_at (s : board) (p : Z) : position_state_changed :=
  mk_position_state_changed p
    (bool_decide (Z.land (data_at (position_state s) (p `div` 8)) (BIT (p `mod` 8)) ≠ 0))
    (uptime_us s `div` 1000).

Global Instance changed_at_dec changed_positions p :
  Decision (changed_at changed_positions p).
Proof. unfold changed_at. apply _. Defined.

(** The instants at which a trace samples the line, on a clock that reads
    [now] when the trace starts and that only [k_busy_wait] moves. *)
Fixpoint sample_times (t : list io) (now : Z) : list Z :=
  match t with
  | [] => []
  | PinGet _ :: t' => now :: sample_times t' now
  | BusyWait usec :: t' => sample_times t' (now + usec)
  | _ :: t' => sample_times t' now
  end.

(** Events played back as calls to the entry points of [onewire.h], one call
    per event, in order. *)
Definition replay (s : board) (events : list position_state_changed) : board :=
  foldl (λ b ev, final (zmk_split_onewire_position (state ev) (position ev) b)) s events.

(** The board with its 16 bytes, and the stores outside the array so far. *)
Definition sound (w : list Z) (s : board) : Prop :=
  length (position_state s) = 16%nat ∧ stray_writes s = w.

(** * Running the monad *)

Section run.
Context {A B : Type}.
Implicit Types (m : M A) (k : A → M B) (s : board).

Lemma result_bind m k s :
  result ((m ≫= k) s) = result (k (result (m s)) (final (m s))).
Proof.
  unfold mbind, M_bind, result, final.
  destruct (m s) as [[a s1] t1]; simpl. by destruct (k a s1) as [[b s2] t2].
Qed.

Lemma final_bind m k s :
  final ((m ≫= k) s) = final (k (result (m s)) (final (m s))).
Proof.
  unfold mbind, M_bind, result, final.
  destruct (m s) as [[a s1] t1]; simpl. by destruct (k a s1) as [[b s2] t2].
Qed.

Lemma trace_bind m k s :
  trace ((m ≫= k) s) = trace (m s) ++ trace (k (result (m s)) (final (m s))).
Proof.
  unfold mbind, M_bind, result, final, trace.
  destruct (m s) as [[a s1] t1]; simpl. by destruct (k a s1) as [[b s2] t2].
Qed.

End run.

Lemma keeps_ret {X A} (f : board → X) (a : A) : keeps f (mret a).
Proof. by intros s. Qed.

Lemma keeps_bind {X A B} (f : board → X) (m : M A) (k : A → M B) :
  keeps f m → (∀ a, keeps f (k a)) → keeps f (m ≫= k).
Proof. intros Hm Hk s. rewrite final_bind, Hk. apply Hm. Qed.

Lemma keeps_for_loop {X} (f : board → X) body n i :
  (∀ j, keeps f (body j)) → keeps f (for_loop n i body).
Proof.
  intros Hb. revert i. induction n as [|n IH]; intros i; simpl.
  - apply keeps_ret.
  - apply keeps_bind; auto.
Qed.

Lemma emits_ret {A} P (a : A) : emits P (mret a).
Proof. intros s. constructor. Qed.

Lemma emits_bind {A B} P (m : M A) (k : A → M B) :
  emits P m → (∀ a, emits P (k a)) → emits P (m ≫= k).
Proof. intros Hm Hk s. rewrite trace_bind. apply Forall_app; split; [apply Hm|apply Hk]. Qed.

Lemma emits_for_loop P body n i :
  (∀ j, emits P (body j)) → emits P (for_loop n i body).
Proof.
  intros Hb. revert i. induction n as [|n IH]; intros i; simpl.
  - apply emits_ret.
  - apply emits_bind; auto.
Qed.

(** A loop whose body keeps [inv], and whose trace is a function of [inv]
    and the index, writes the traces of its rounds one after the other. *)
Lemma for_loop_trace {X} (inv : board → X) body (g : X → Z → list io) :
  (∀ j, keeps inv (body j)) →
  (∀ j s, trace (body j s) = g (inv s) j) →
  ∀ n i s, trace (for_loop n i body s) = seqZ i (Z.of_nat n) ≫= g (inv s).
Proof.
  intros Hk Ht. induction n as [|n IH]; intros i s.
  - done.
  - cbn [for_loop]. rewrite trace_bind, Ht, IH, Hk.
    rewrite (seqZ_cons i) by lia. rewrite bind_cons.
    by replace (Z.pred (Z.of_nat (S n))) with (Z.of_nat n) by lia.
Qed.

(** ** The primitives, one by one *)

Ltac prim := intros s; try done; cbv beta delta
  [gpio_pin_set gpio_pin_get k_busy_wait k_uptime_get log ZMK_EVENT_RAISE
   gpio_pin_interrupt_configure load_position_state modify_position_state
   store_position_state];
  repeat case_match; simpl; try done; repeat constructor; try done.

Ltac mon :=
  repeat first
    [ apply keeps_ret | apply emits_ret
    | apply keeps_bind | apply emits_bind
    | apply keeps_for_loop | apply emits_for_loop
    | progress intros
    | case_bool_decide
    | solve [prim] ].

(** ** The transmitter *)

Lemma keeps_send_bits {X} (f : board → X) n byte :
  (∀ us, keeps f (k_busy_wait us)) → keeps f (send_bits n byte).
Proof.
  intros Hw. revert byte. induction n as [|n IH]; intros byte; cbn [send_bits].
  - apply keeps_ret.
  - apply keeps_bind; [by intros s|intros _].
    apply keeps_bind; [apply Hw|intros _; apply IH].
Qed.

Lemma keeps_memory_send_byte byte : keeps memory (onewire_send_byte byte).
Proof. apply keeps_send_bits. by intros us s. Qed.

Lemma trace_send_byte byte s : trace (onewire_send_byte byte s) = byte_trace byte.
Proof. reflexivity. Qed.

Lemma keeps_memory_send_onewire_data len : keeps memory (send_onewire_data len).
Proof.
  unfold send_onewire_data, onewire_start_transmission, onewire_end_transmission,
    for_upto.
  mon; apply keeps_memory_send_byte.
Qed.

Lemma memory_position_state s1 s2 :
  memory s1 = memory s2 → position_state s1 = position_state s2.
Proof. unfold memory. congruence. Qed.

(** Reading a list cell by cell gives the list back. *)
Lemma data_at_seqZ (l : list Z) :
  (data_at l <$> seqZ 0 (Z.of_nat (length l))) = l.
Proof.
  apply list_eq; intros i. rewrite list_lookup_fmap.
  destruct (decide (i < length l)%nat) as [Hi|Hi].
  - rewrite lookup_seqZ_lt by lia. simpl. unfold data_at.
    rewrite Z.add_0_l, Nat2Z.id.
    destruct (lookup_lt_is_Some_2 l i Hi) as [x Hx]. by rewrite Hx.
  - rewrite lookup_seqZ_ge by lia. simpl. symmetry. apply lookup_ge_None. lia.
Qed.

(** [send_onewire_data]: whatever the board, the trace is the frame of the
    first [len] cells of [position_state]. *)
Lemma trace_send_onewire_data len s :
  trace (send_onewire_data len s) =
  frame_trace len (data_at (position_state s) <$> seqZ 0 len).
Proof.
  unfold send_onewire_data, onewire_start_transmission, onewire_end_transmission,
    frame_trace.
  rewrite !trace_bind, !trace_send_byte. rewrite <- !app_assoc. do 2 f_equal.
  f_equal.
  unfold for_upto.
  rewrite (for_loop_trace memory _ (λ m i, byte_trace (data_at m.1 i))).
  - rewrite !final_bind, !keeps_memory_send_byte. simpl.
    rewrite list_fmap_bind.
    destruct (decide (0 ≤ len)).
    + by rewrite Z2Nat.id by lia.
    + rewrite !seqZ_nil by lia. done.
  - intros j. apply keeps_bind; [by intros ?|intros b].
    apply keeps_memory_send_byte.
  - intros j s'. by rewrite trace_bind, trace_send_byte.
Qed.

(** ** Bits of a byte *)

Lemma testbit_u8 x j : 0 ≤ j < 8 → Z.testbit (u8 x) j = Z.testbit x j.
Proof. intros Hj. unfold u8. change 256 with (2 ^ 8). apply Z.mod_pow2_bits_low. lia. Qed.

Lemma u8_id x : 0 ≤ x < 256 → u8 x = x.
Proof. intros Hx. unfold u8. by apply Z.mod_small. Qed.

Lemma u8_range x : 0 ≤ u8 x < 256.
Proof. unfold u8. by apply Z.mod_pos_bound. Qed.

Lemma testbit_BIT n j : 0 ≤ n → Z.testbit (BIT n) j = bool_decide (j = n).
Proof.
  intros Hn. unfold BIT. rewrite Z.shiftl_1_l, Z.pow2_bits_eqb by done.
  case_bool_decide; [apply Z.eqb_eq|apply Z.eqb_neq]; lia.
Qed.

Lemma testbit_WRITE_BIT var bit set j :
  0 ≤ bit → 0 ≤ j →
  Z.testbit (WRITE_BIT var bit set) j =
  if bool_decide (j = bit) then set else Z.testbit var j.
Proof.
  intros Hb Hj. unfold WRITE_BIT. destruct set.
  - rewrite Z.lor_spec, testbit_BIT by done.
    case_bool_decide; [apply orb_true_r|apply orb_false_r].
  - rewrite Z.land_spec, Z.lnot_spec, testbit_BIT by done.
    case_bool_decide; simpl; [apply andb_false_r|apply andb_true_r].
Qed.

(** [x & BIT(j)] is non-zero exactly when bit [j] of [x] is set. *)
Lemma land_BIT_nonzero x j : 0 ≤ j → Z.land x (BIT j) ≠ 0 ↔ Z.testbit x j = true.
Proof.
  intros Hj. split.
  - intros Hne. destruct (Z.testbit x j) eqn:Hx; [done|]. exfalso. apply Hne.
    apply Z.bits_inj_iff'. intros n Hn.
    rewrite Z.land_spec, testbit_BIT, Z.bits_0 by done.
    case_bool_decide; subst; [by rewrite Hx|apply andb_false_r].
  - intros Hx Heq. apply (f_equal (λ y, Z.testbit y j)) in Heq.
    rewrite Z.land_spec, testbit_BIT, Z.bits_0, Hx in Heq by done.
    by rewrite bool_decide_eq_true_2 in Heq.
Qed.

(** Two bytes with the same eight bits are equal. *)
Lemma byte_eq_bits a b :
  0 ≤ a < 256 → 0 ≤ b < 256 →
  (∀ j, 0 ≤ j < 8 → Z.testbit a j = Z.testbit b j) → a = b.
Proof.
  intros Ha Hb Hbits. apply Z.bits_inj_iff'. intros n Hn.
  destruct (decide (n < 8)) as [Hlt|Hge]; [apply Hbits; lia|].
  rewrite <- (u8_id a), <- (u8_id b) by done. unfold u8. change 256 with (2 ^ 8).
  by rewrite !Z.mod_pow2_bits_high by lia.
Qed.

(** ** The array *)

Lemma data_at_alter f i l k :
  0 ≤ i → 0 ≤ k →
  data_at (alter f (Z.to_nat i) l) k =
  if bool_decide (k = i ∧ i < Z.of_nat (length l)) then f (data_at l i) else data_at l k.
Proof.
  intros Hi Hk. unfold data_at. case_bool_decide as Hc.
  - destruct Hc as [-> Hin]. rewrite list_lookup_alter_eq.
    destruct (lookup_lt_is_Some_2 l (Z.to_nat i)) as [x Hx]; [lia|]. by rewrite Hx.
  - destruct (decide (k = i)) as [->|Hne].
    + rewrite list_lookup_alter_eq.
      rewrite (proj2 (lookup_ge_None l (Z.to_nat i))); [done|]. lia.
    + rewrite list_lookup_alter_ne by lia. done.
Qed.

Lemma final_modify_position_state i f s :
  memory (final (modify_position_state i f s)) =
  if in_bounds i (position_state s)
  then (alter (λ b, u8 (f b)) (Z.to_nat i) (position_state s), stray_writes s)
  else (position_state s, stray_writes s ++ [i]).
Proof. unfold modify_position_state. by case_match. Qed.

Lemma length_modify_position_state i f s :
  length (position_state (final (modify_position_state i f s))) =
  length (position_state s).
Proof.
  unfold modify_position_state. case_match; simpl; [apply length_alter|done].
Qed.

(** A write to [position_state] followed by [send_onewire_data]: the frame
    carries the array as the write left it. *)
Lemma trace_write_then_send i f s :
  length (position_state s) = 16%nat →
  trace ((modify_position_state i f;; send_onewire_data sizeof_position_state) s) =
    frame_trace 16
      (position_state
         (final ((modify_position_state i f;; send_onewire_data sizeof_position_state) s)))
  ∧ memory (final ((modify_position_state i f;; send_onewire_data sizeof_position_state) s))
    = memory (final (modify_position_state i f s)).
Proof.
  intros Hlen. rewrite trace_bind, final_bind. split.
  - rewrite trace_send_onewire_data.
    rewrite (memory_position_state _ _ (keeps_memory_send_onewire_data _ _)).
    pose proof (length_modify_position_state i f s) as Hl. rewrite Hlen in Hl.
    replace (trace (modify_position_state i f s)) with (@nil io)
      by (unfold modify_position_state; by case_match).
    change sizeof_position_state with (Z.of_nat 16). rewrite <- Hl at 2.
    by rewrite data_at_seqZ.
  - apply keeps_memory_send_onewire_data.
Qed.

Lemma byte_trace_eq byte : byte_trace byte = [PinSet (Z.land byte 1); BusyWait ONE_PERIOD_US].
Proof. reflexivity. Qed.

Lemma driven_app t1 t2 : driven (t1 ++ t2) = driven t1 ++ driven t2.
Proof. apply bind_app. Qed.

Lemma driven_payload (payload : list Z) :
  driven (payload ≫= byte_trace) = (λ b, Z.land b 1) <$> payload.
Proof.
  induction payload as [|b l IH]; [done|].
  rewrite bind_cons, driven_app, IH. by rewrite byte_trace_eq.
Qed.

(** The levels a frame puts on the line: one per byte handed to
    [onewire_send_byte], then the idle level. *)
Lemma driven_frame_trace len payload :
  driven (frame_trace len payload) =
  Z.land FRAMING_SYMBOL 1 :: Z.land len 1 :: ((λ b, Z.land b 1) <$> payload) ++ [1].
Proof.
  unfold frame_trace. rewrite !driven_app, driven_payload.
  by rewrite !byte_trace_eq.
Qed.

(** * The claims on the transmitter *)

(** The write of [zmk_split_onewire_position_pressed] (line 118) and of
    [zmk_split_onewire_position_released] (line 123), for a position the
    array holds. *)
Lemma modify_writes_only_bit p v s s' :
  0 ≤ p < 128 → is_bitmap (position_state s) →
  memory s' =
    memory (final (modify_position_state (p `quot` 8)
                     (λ var, WRITE_BIT var (p `rem` 8) v) s)) →
  writes_only_bit p v s s'.
Proof.
  intros Hp [Hlen Hbytes] Hm.
  change (Z.to_nat POSITION_STATE_DATA_LEN) with 16%nat in Hlen.
  rewrite Z.quot_div_nonneg, Z.rem_mod_nonneg in Hm by lia.
  rewrite final_modify_position_state in Hm. unfold in_bounds in Hm.
  assert (0 ≤ p `div` 8 < 16) as Hi by (split; [apply Z.div_pos|apply Z.div_lt_upper_bound]; lia).
  rewrite bool_decide_eq_true_2 in Hm by lia.
  injection Hm as Hps Hstray. unfold writes_only_bit. rewrite Hps.
  split; [done|]. split; [|split].
  - split; [by rewrite length_alter|].
    apply Forall_alter; [done|]. intros x _ _. apply u8_range.
  - intros q Hq.
    assert (0 ≤ q `div` 8 < 16) as Hqi
      by (split; [apply Z.div_pos|apply Z.div_lt_upper_bound]; lia).
    pose proof (Z.mod_pos_bound q 8 ltac:(lia)) as Hqj.
    pose proof (Z.mod_pos_bound p 8 ltac:(lia)) as Hpj.
    pose proof (Z.div_mod q 8 ltac:(lia)) as Hqe.
    pose proof (Z.div_mod p 8 ltac:(lia)) as Hpe.
    unfold bitmap_bit. rewrite data_at_alter by lia.
    case_bool_decide as Hc.
    + destruct Hc as [Hc _]. rewrite testbit_u8, testbit_WRITE_BIT by lia.
      rewrite Hc. repeat case_bool_decide; try done; exfalso; lia.
    + rewrite bool_decide_eq_false_2; [done|]. intros ->. apply Hc.
      split; [done|]. lia.
  - intros i Hi0 Hne. rewrite data_at_alter by lia.
    rewrite bool_decide_eq_false_2; [done|]. intros [? _]. done.
Qed.

(** C10: for a position below 128 the two entry points store through
    [position_state[position / 8]] inside the array only, give bit
    [position % 8] of that byte its new value, and leave every other bit and
    byte of the bitmap as it was. *)
Theorem C10_position_in_range_touches_one_bit (position : Z) (s : board) :
  0 ≤ position < 128 → is_bitmap (position_state s) →
  0 ≤ position `quot` 8 < POSITION_STATE_DATA_LEN
  ∧ writes_only_bit position true s
      (final (zmk_split_onewire_position_pressed position s))
  ∧ writes_only_bit position false s
      (final (zmk_split_onewire_position_released position s)).
Proof.
  intros Hp Hbm. split; [|split].
  - rewrite Z.quot_div_nonneg by lia. unfold POSITION_STATE_DATA_LEN.
    split; [apply Z.div_pos|apply Z.div_lt_upper_bound]; lia.
  - apply modify_writes_only_bit; [done..|].
    unfold zmk_split_onewire_position_pressed. rewrite final_bind.
    apply keeps_memory_send_onewire_data.
  - apply modify_writes_only_bit; [done..|].
    unfold zmk_split_onewire_position_released. rewrite final_bind.
    apply keeps_memory_send_onewire_data.
Qed.

Lemma is_bitmap_board_init : is_bitmap (position_state board_init).
Proof. split; [done|]. simpl. repeat constructor; lia. Qed.

Lemma C10_witness :
  0 ≤ 10 `quot` 8 < POSITION_STATE_DATA_LEN
  ∧ writes_only_bit 10 true board_init
      (final (zmk_split_onewire_position_pressed 10 board_init))
  ∧ writes_only_bit 10 false board_init
      (final (zmk_split_onewire_position_released 10 board_init)).
Proof.
  apply (C10_position_in_range_touches_one_bit 10 board_init).
  - lia.
  - apply is_bitmap_board_init.
Defined.

(** Where the store of line 118 or 123 goes for a position from 128 up: to
    byte index [position / 8], which is 16 or more, outside the array. *)
Lemma position_out_of_range_store position v s :
  128 ≤ position < 256 → length (position_state s) = 16%nat →
  memory (final (modify_position_state (position `quot` 8)
                   (λ var, WRITE_BIT var (position `rem` 8) v) s))
  = (position_state s, stray_writes s ++ [position `quot` 8]).
Proof.
  intros Hp Hlen. rewrite final_modify_position_state. unfold in_bounds.
  rewrite bool_decide_eq_false_2; [done|]. rewrite Hlen.
  rewrite Z.quot_div_nonneg by lia.
  pose proof (Z.div_le_lower_bound position 8 16 ltac:(lia) ltac:(lia)). lia.
Qed.

(** C4: what the code does for position 200, and for every position
    from 128 to 255. Nothing compares [position] with the size of the array:
    the store of line 118 (or 123) is made through byte index
    [position / 8], which is 16 or more, outside the 16 bytes of
    [position_state] (the model records the index, 25 for position 200), and
    the call goes on to [send_onewire_data], which drives the line. *)
Theorem C4_position_out_of_range_is_stored_and_sent :
  (∀ position v s,
     128 ≤ position < 256 → length (position_state s) = 16%nat →
     in_bounds (position `quot` 8) (position_state s) = false
     ∧ memory (final (modify_position_state (position `quot` 8)
                        (λ var, WRITE_BIT var (position `rem` 8) v) s))
       = (position_state s, stray_writes s ++ [position `quot` 8]))
  ∧ (stray_writes (final (zmk_split_onewire_position_pressed 200 board_init)) = [25]
     ∧ stray_writes (final (zmk_split_onewire_position_released 200 board_init)) = [25])
  ∧ (driven (trace (zmk_split_onewire_position_pressed 200 board_init)) =
       [1; 0; 0; 0; 0; 0; 0; 0; 0; 0; 0; 0; 0; 0; 0; 0; 0; 0; 1]
     ∧ driven (trace (zmk_split_onewire_position_released 200 board_init)) =
       [1; 0; 0; 0; 0; 0; 0; 0; 0; 0; 0; 0; 0; 0; 0; 0; 0; 0; 1]).
Proof.
  split; [|repeat split; reflexivity].
  intros position v s Hp Hlen.
  assert (in_bounds (position `quot` 8) (position_state s) = false) as Hout.
  { unfold in_bounds. apply bool_decide_eq_false_2. rewrite Hlen.
    rewrite Z.quot_div_nonneg by lia.
    pose proof (Z.div_le_lower_bound position 8 16 ltac:(lia) ltac:(lia)). lia. }
  split; [exact Hout|]. by rewrite final_modify_position_state, Hout.
Qed.

(** C7: what the code does at the start of every transmission. The first
    operation of either entry point drives the line to bit 0 of
    [FRAMING_SYMBOL], which is 1: the line is driven high, not low, and no
    low level of one period precedes the start symbol. *)
Theorem C7_transmission_starts_by_driving_high (position : Z) (s : board) :
  head (trace (zmk_split_onewire_position_pressed position s)) = Some (PinSet 1)
  ∧ head (trace (zmk_split_onewire_position_released position s)) = Some (PinSet 1)
  ∧ head (trace (send_onewire_data sizeof_position_state s)) = Some (PinSet 1)
  ∧ trace (onewire_start_transmission sizeof_position_state s) =
      [PinSet 1; BusyWait ONE_PERIOD_US; PinSet 0; BusyWait ONE_PERIOD_US].
Proof.
  unfold zmk_split_onewire_position_pressed, zmk_split_onewire_position_released.
  rewrite !trace_bind, !trace_send_onewire_data.
  replace (trace (modify_position_state _ _ s)) with (@nil io)
    by (unfold modify_position_state; by case_match).
  replace (trace (modify_position_state _ _ s)) with (@nil io)
    by (unfold modify_position_state; by case_match).
  done.
Qed.

(** With eight rounds per byte the two loops agree on every byte: the loop
    bodies are each other's inverse, the bound is what is off. *)
Lemma roundtrip_eight_rounds byte : 0 ≤ byte < 256 → roundtrip_rounds 8 byte = byte.
Proof.
  intros Hb.
  assert (Forall (λ b, roundtrip_rounds 8 b = b) (seqZ 0 256)) as Hall.
  { apply (bool_decide_unpack _). vm_compute. exact I. }
  rewrite Forall_seqZ in Hall. apply Hall. lia.
Qed.

(** [onewire_read_byte], in closed form: [sizeof(byte)] rounds are one
    round, so one level is sampled and it is the whole byte. *)
Lemma onewire_read_byte_eq s :
  onewire_read_byte s =
  (if bool_decide (0 ≤ pin_level s) then u8 (pin_level s) else 0,
   set_uptime_us (uptime_us s + ONE_PERIOD_US) (set_line_in (tail (line_in s)) s),
   PinGet (pin_level s)
   :: (if bool_decide (0 ≤ pin_level s) then []
       else [Log "Pin read error: %d" (pin_level s)])
   ++ [BusyWait ONE_PERIOD_US]).
Proof.
  destruct s as [ps stray line im up]. unfold onewire_read_byte, pin_level.
  change (Z.to_nat sizeof_u8) with 1%nat.
  unfold read_bits, mbind, M_bind, mret, M_ret, gpio_pin_get, k_busy_wait, log.
  destruct line as [|v rest]; simpl.
  - done.
  - case_bool_decide; simpl; [|done]. by rewrite Z.shiftl_0_r.
Qed.

(** Only bit 0 crosses the line. *)
Lemma onewire_roundtrip_bit_0 byte : onewire_roundtrip byte = Z.land byte 1.
Proof.
  unfold onewire_roundtrip, loopback. rewrite trace_send_byte, byte_trace_eq.
  rewrite onewire_read_byte_eq. unfold result, pin_level. simpl.
  assert (0 ≤ Z.land byte 1 < 2) as Hr.
  { change 1 with (Z.ones 1). rewrite Z.land_ones by lia. by apply Z.mod_pos_bound. }
  rewrite bool_decide_eq_true_2 by lia. apply u8_id. lia.
Qed.

(** C1: what the code does on the byte 2, on the start symbol, and on a
    bitmap. [onewire_send_byte] drives one level per byte and
    [onewire_read_byte] samples one: the byte read back is bit 0 of the byte
    sent, so 2 comes back as 0, 0x55 as 1, and a bitmap with any bit other
    than bit 0 of a byte set does not come back. *)
Theorem C1_roundtrip_returns_bit_0_only :
  onewire_roundtrip 2 = 0
  ∧ onewire_roundtrip FRAMING_SYMBOL = 1
  ∧ onewire_roundtrip <$> [2; 0; 0; 0; 0; 0; 0; 0; 0; 0; 0; 0; 0; 0; 0; 0]
    = [0; 0; 0; 0; 0; 0; 0; 0; 0; 0; 0; 0; 0; 0; 0; 0]
  ∧ ∀ byte, onewire_roundtrip byte = Z.land byte 1.
Proof.
  split; [done|]. split; [done|]. split; [done|]. apply onewire_roundtrip_bit_0.
Qed.

(** C8, as stated, fails: at a bit period of 51 the delay is 76, not 76.5. *)
Lemma C8_counterexample :
  sample_offset_of 51 = 76 ∧ 2 * sample_offset_of 51 ≠ 3 * 51.
Proof. split; [reflexivity|discriminate]. Qed.

(** C8, amended: the delay is [ONE_PERIOD_US + ONE_PERIOD_US / 2] with C's
    truncating division, so twice the delay is three bit periods less the
    remainder of the bit period by 2: exactly 1.5 bit periods for every even
    bit period, 75 for the 50 of the source, which is what the callback
    waits first. *)
Theorem C8_sample_offset_truncates :
  (∀ p, 2 * sample_offset_of p = 3 * p - p `rem` 2)
  ∧ (∀ k, sample_offset_of (2 * k) = 3 * k)
  ∧ sample_offset_of ONE_PERIOD_US = 75
  ∧ (∀ s, head (trace (onewire_cb_receive s))
          = Some (BusyWait (sample_offset_of ONE_PERIOD_US))).
Proof.
  split; [|split; [|split]].
  - intros p. unfold sample_offset_of, HALF_PERIOD_US_of.
    pose proof (Z.quot_rem' p 2). lia.
  - intros k. unfold sample_offset_of, HALF_PERIOD_US_of.
    replace (2 * k) with (k * 2) by lia. rewrite Z.quot_mul by lia. lia.
  - reflexivity.
  - intros s. unfold onewire_cb_receive. by rewrite trace_bind.
Qed.

(** * The receiver *)

Lemma raised_app t1 t2 : raised (t1 ++ t2) = raised t1 ++ raised t2.
Proof. apply bind_app. Qed.

Lemma raised_bind {A} (l : list A) (f : A → list io) :
  raised (l ≫= f) = l ≫= λ x, raised (f x).
Proof.
  induction l as [|x l IH]; [done|]. by rewrite !bind_cons, raised_app, IH.
Qed.

(** A computation that emits nothing at all has an empty trace. *)
Lemma emits_False_nil {A} (m : M A) s : emits (λ _, False) m → trace (m s) = [].
Proof.
  intros H. specialize (H s). destruct (trace (m s)) as [|op t]; [done|].
  by apply Forall_cons in H as [[] _].
Qed.

(** ** [onewire_cb_update] *)

Lemma update_loop_S data n i changed s :
  update_loop data (S n) i changed s =
  update_loop data n (i + 1)
    (<[Z.to_nat i := u8 (Z.lxor (data_at data i) (data_at (position_state s) i))]> changed)
    (final (store_position_state i (data_at data i) s)).
Proof.
  cbn [update_loop]. unfold mbind, M_bind, load_position_state,
    store_position_state, modify_position_state, final, data_at.
  destruct (in_bounds i (position_state s)); simpl;
    by destruct (update_loop _ _ _ _ _) as [[? ?] ?].
Qed.

Lemma keeps_update_loop {X} (f : board → X) data n i changed :
  (∀ j g, keeps f (modify_position_state j g)) →
  keeps f (update_loop data n i changed).
Proof.
  intros Hf. revert i changed. induction n as [|n IH]; intros i changed s.
  - done.
  - rewrite update_loop_S, IH. apply Hf.
Qed.

Lemma emits_update_loop P data n i changed : emits P (update_loop data n i changed).
Proof.
  revert i changed. induction n as [|n IH]; intros i changed s.
  - constructor.
  - rewrite update_loop_S. apply IH.
Qed.

Lemma length_update_loop data n i changed s :
  length (position_state (final (update_loop data n i changed s)))
  = length (position_state s).
Proof.
  revert i changed s. induction n as [|n IH]; intros i changed s.
  - done.
  - rewrite update_loop_S, IH. apply length_modify_position_state.
Qed.

Lemma length_store_position_state i v s :
  length (position_state (final (store_position_state i v s))) =
  length (position_state s).
Proof. apply length_modify_position_state. Qed.

Lemma data_at_store i v s k :
  0 ≤ i → 0 ≤ k →
  data_at (position_state (final (store_position_state i v s))) k =
  if bool_decide (k = i ∧ i < Z.of_nat (length (position_state s)))
  then u8 v else data_at (position_state s) k.
Proof.
  intros Hi Hk. unfold store_position_state, modify_position_state, in_bounds.
  case_bool_decide as Hin; simpl.
  - by rewrite data_at_alter.
  - rewrite bool_decide_eq_false_2; [done|]. intros [_ ?]. apply Hin. lia.
Qed.

(** What the loop of lines 105-108 leaves in [changed_positions] and in
    [position_state], cell by cell. *)
Lemma update_loop_cells data n i changed s k :
  0 ≤ i → 0 ≤ k →
  data_at (result (update_loop data n i changed s)) k =
    (if bool_decide (i ≤ k < i + Z.of_nat n ∧ k < Z.of_nat (length changed))
     then u8 (Z.lxor (data_at data k) (data_at (position_state s) k))
     else data_at changed k)
  ∧ data_at (position_state (final (update_loop data n i changed s))) k =
    (if bool_decide (i ≤ k < i + Z.of_nat n ∧ k < Z.of_nat (length (position_state s)))
     then u8 (data_at data k)
     else data_at (position_state s) k).
Proof.
  intros Hi Hk. revert i changed s Hi.
  induction n as [|n IH]; intros i changed s Hi.
  - cbn [update_loop]. rewrite !bool_decide_eq_false_2 by lia. done.
  - rewrite update_loop_S.
    destruct (IH (i + 1) (<[Z.to_nat i :=
      u8 (Z.lxor (data_at data i) (data_at (position_state s) i))]> changed)
      (final (store_position_state i (data_at data i) s)) ltac:(lia)) as [IH1 IH2].
    rewrite IH1, IH2. clear IH1 IH2 IH.
    rewrite length_insert, length_store_position_state.
    rewrite !data_at_store by lia. rewrite list_insert_alter, data_at_alter by lia.
    split; repeat case_bool_decide; destruct_and?; subst; try done; exfalso; lia.
Qed.

Lemma list_eq_data_at (l1 l2 : list Z) :
  length l1 = length l2 →
  (∀ k, 0 ≤ k < Z.of_nat (length l1) → data_at l1 k = data_at l2 k) →
  l1 = l2.
Proof.
  intros Hlen Hk. apply list_eq. intros i.
  destruct (decide (i < length l1)%nat) as [Hi|Hi].
  - specialize (Hk (Z.of_nat i) ltac:(lia)). unfold data_at in Hk.
    rewrite Nat2Z.id in Hk.
    destruct (lookup_lt_is_Some_2 l1 i Hi) as [x Hx].
    destruct (lookup_lt_is_Some_2 l2 i ltac:(lia)) as [y Hy].
    rewrite Hx, Hy in Hk |- *. simpl in Hk. by subst.
  - rewrite !(proj2 (lookup_ge_None _ _)) by lia. done.
Qed.

Lemma data_at_range (l : list Z) k :
  Forall (λ b, 0 ≤ b < 256) l → 0 ≤ data_at l k < 256.
Proof.
  intros Hl. unfold data_at. destruct (l !! Z.to_nat k) as [x|] eqn:Hx; simpl; [|lia].
  by apply (Forall_lookup_1 _ _ _ _ Hl Hx).
Qed.

(** After lines 105-108 [position_state] holds [data], and cell [i] of
    [changed_positions] holds the bits in which [data] and the old
    [position_state] differ. Nothing is written to the environment. *)
Lemma onewire_cb_update_bitmap data s :
  is_bitmap data → length (position_state s) = 16%nat →
  position_state (final (onewire_cb_update data s)) = data
  ∧ (∀ i j, 0 ≤ i < 16 → 0 ≤ j < 8 →
       Z.testbit (data_at (result (onewire_cb_update data s)) i) j =
       xorb (Z.testbit (data_at data i) j) (Z.testbit (data_at (position_state s) i) j))
  ∧ trace (onewire_cb_update data s) = []
  ∧ uptime_us (final (onewire_cb_update data s)) = uptime_us s.
Proof.
  intros [Hlen Hbytes] Hps.
  change (Z.to_nat POSITION_STATE_DATA_LEN) with 16%nat in Hlen.
  unfold onewire_cb_update. change (Z.to_nat POSITION_STATE_DATA_LEN) with 16%nat.
  split; [|split; [|split]].
  - apply list_eq_data_at.
    + by rewrite length_update_loop, Hps, Hlen.
    + rewrite length_update_loop, Hps. intros k Hk.
      destruct (update_loop_cells data 16 0 (replicate 16 0) s k) as [_ ->]; [lia..|].
      rewrite Hps, bool_decide_eq_true_2 by lia. apply u8_id. by apply data_at_range.
  - intros i j Hi Hj.
    destruct (update_loop_cells data 16 0 (replicate 16 0) s i) as [-> _]; [lia..|].
    rewrite length_replicate, bool_decide_eq_true_2 by lia.
    rewrite testbit_u8 by lia. apply Z.lxor_spec.
  - apply emits_False_nil, emits_update_loop.
  - apply keeps_update_loop. intros j g s'. unfold modify_position_state.
    by case_match.
Qed.

(** ** [onewire_cb_raise] *)

Lemma onewire_cb_raise_bit_run changed i j s :
  final (onewire_cb_raise_bit changed i j s) = s
  ∧ raised (trace (onewire_cb_raise_bit changed i j s)) =
    if bool_decide (Z.land (data_at changed i) (BIT j) ≠ 0)
    then [mk_position_state_changed (i * 8 + j)
            (bool_decide (Z.land (data_at (position_state s) i) (BIT j) ≠ 0))
            (uptime_us s `div` 1000)]
    else [].
Proof. unfold onewire_cb_raise_bit. by case_bool_decide. Qed.

Lemma keeps_board_raise_bit changed i j :
  keeps (λ s, s) (onewire_cb_raise_bit changed i j).
Proof. intros s. apply onewire_cb_raise_bit_run. Qed.

(** The two nested loops write the traces of their 16 times 8 rounds one
    after the other, and leave the board alone. *)
Lemma onewire_cb_raise_run changed s :
  final (onewire_cb_raise changed s) = s
  ∧ trace (onewire_cb_raise changed s) =
    seqZ 0 16 ≫= λ i, seqZ 0 8 ≫= λ j, trace (onewire_cb_raise_bit changed i j s).
Proof.
  unfold onewire_cb_raise, for_upto. split.
  - apply (keeps_for_loop (λ s, s)). intros i.
    apply (keeps_for_loop (λ s, s)). apply keeps_board_raise_bit.
  - rewrite (for_loop_trace (λ s, s) _
      (λ s i, seqZ 0 8 ≫= λ j, trace (onewire_cb_raise_bit changed i j s))).
    + done.
    + intros i. apply (keeps_for_loop (λ s, s)). apply keeps_board_raise_bit.
    + intros i s'.
      by rewrite (for_loop_trace (λ s, s) _
        (λ s j, trace (onewire_cb_raise_bit changed i j s)))
        by (done || apply keeps_board_raise_bit).
Qed.

Lemma raised_onewire_cb_raise changed s :
  raised (trace (onewire_cb_raise changed s)) =
  seqZ 0 16 ≫= λ i, seqZ 0 8 ≫= λ j, raised (trace (onewire_cb_raise_bit changed i j s)).
Proof.
  rewrite (proj2 (onewire_cb_raise_run changed s)), raised_bind.
  apply list_bind_ext; [|done]. intros i. apply raised_bind.
Qed.

(** ** Positions, byte by byte and bit by bit *)

Lemma position_div_mod i j : 0 ≤ j < 8 → (i * 8 + j) `div` 8 = i ∧ (i * 8 + j) `mod` 8 = j.
Proof.
  intros Hj. split.
  - symmetry. apply (Z.div_unique _ _ _ j); lia.
  - symmetry. apply (Z.mod_unique _ _ i); lia.
Qed.

(** Rounds [i] of the outer loop and [j] of the inner one, in the order the
    loops run them, are the positions [i * 8 + j] in ascending order. *)
Lemma bind_seqZ_blocks {A} (F : Z → list A) (n : nat) :
  seqZ 0 (Z.of_nat n) ≫= (λ i, seqZ 0 8 ≫= λ j, F (i * 8 + j))
  = seqZ 0 (Z.of_nat n * 8) ≫= F.
Proof.
  induction n as [|n IH]; [done|].
  rewrite seqZ_S, bind_app, bind_singleton, IH.
  replace (Z.of_nat (S n) * 8) with (Z.of_nat n * 8 + 8) by lia.
  rewrite seqZ_app, bind_app by lia. f_equal.
  replace (0 + Z.of_nat n * 8) with (Z.of_nat n * 8 + 0) by lia.
  rewrite <- fmap_add_seqZ, list_fmap_bind.
  apply list_bind_ext; [|done]. intros j. simpl. by rewrite Z.add_0_l.
Qed.

Lemma bind_if_filter {A B} (P : A → Prop) `{∀ x, Decision (P x)} (f : A → B) l :
  l ≫= (λ x, if bool_decide (P x) then [f x] else []) = f <$> filter P l.
Proof.
  induction l as [|x l IH]; [done|].
  rewrite bind_cons, filter_cons, IH. case_bool_decide; by case_decide.
Qed.

Lemma StronglySorted_filter {A} (R : relation A) (P : A → Prop)
    `{∀ x, Decision (P x)} l :
  StronglySorted R l → StronglySorted R (filter P l).
Proof.
  induction 1 as [|x l Hl IH Hx]; [constructor|].
  rewrite filter_cons. case_decide; [|done]. constructor; [done|].
  apply Forall_forall. intros y [_ Hy]%list_elem_of_filter.
  by apply (proj1 (Forall_forall _ _) Hx).
Qed.

Lemma StronglySorted_seqZ m n : StronglySorted Z.lt (seqZ m n).
Proof.
  destruct (decide (0 ≤ n)) as [Hn|Hn]; [|rewrite seqZ_nil by lia; constructor].
  rewrite <- (Z2Nat.id n Hn). generalize (Z.to_nat n) as k. clear n Hn. intros k.
  revert m. induction k as [|k IH]; intros m; [constructor|].
  rewrite seqZ_cons by lia. replace (Z.pred (Z.of_nat (S k))) with (Z.of_nat k) by lia.
  constructor; [apply IH|]. apply Forall_seqZ. lia.
Qed.

(** ** [differing] *)

Lemma elem_of_differing old new p :
  p ∈ differing old new ↔ 0 ≤ p < 128 ∧ bitmap_bit old p ≠ bitmap_bit new p.
Proof.
  unfold differing. rewrite list_elem_of_filter, elem_of_seqZ.
  unfold POSITION_STATE_DATA_LEN. split; intros [? ?]; split; try done; lia.
Qed.

Lemma StronglySorted_differing old new : StronglySorted Z.lt (differing old new).
Proof. apply StronglySorted_filter, StronglySorted_seqZ. Qed.

Lemma differing_nil_iff old new :
  is_bitmap old → is_bitmap new → differing old new = [] ↔ old = new.
Proof.
  intros [Hlo Hbo] [Hln Hbn].
  change (Z.to_nat POSITION_STATE_DATA_LEN) with 16%nat in Hlo, Hln. split.
  - intros Hnil. apply list_eq_data_at; [congruence|]. intros i Hi.
    apply byte_eq_bits; [by apply data_at_range..|]. intros j Hj.
    destruct (position_div_mod i j Hj) as [Hd Hm].
    destruct (decide (bitmap_bit old (i * 8 + j) = bitmap_bit new (i * 8 + j)))
      as [Heq|Hne].
    + unfold bitmap_bit in Heq. by rewrite Hd, Hm in Heq.
    + exfalso. assert (i * 8 + j ∈ differing old new) as Hin
        by (apply elem_of_differing; split; [lia|done]).
      rewrite Hnil in Hin. by apply elem_of_nil in Hin.
  - intros ->. destruct (differing new new) as [|p l] eqn:Hd; [done|].
    assert (p ∈ differing new new) as Hin by (rewrite Hd; left).
    by apply elem_of_differing in Hin as [_ ?].
Qed.

Lemma bool_decide_land_BIT x j : 0 ≤ j → bool_decide (Z.land x (BIT j) ≠ 0) = Z.testbit x j.
Proof.
  intros Hj. rewrite (bool_decide_ext _ _ (land_BIT_nonzero x j Hj)).
  by destruct (Z.testbit x j).
Qed.

(** The events of lines 110-124, after lines 105-108 have run on a board
    holding [old]: one per position of [differing old new], in that order,
    carrying the bit of [new]. *)
Lemma raised_onewire_cb_diff new s :
  is_bitmap (position_state s) → is_bitmap new →
  raised (trace (onewire_cb_diff new s)) =
  (λ p, mk_position_state_changed p (bitmap_bit new p) (uptime_us s `div` 1000))
    <$> differing (position_state s) new.
Proof.
  intros [Hlen _] Hnew.
  destruct (onewire_cb_update_bitmap new s Hnew Hlen) as (Hps & Hbits & Ht & Hup).
  unfold onewire_cb_diff. rewrite trace_bind, Ht, app_nil_l.
  rewrite raised_onewire_cb_raise.
  unfold differing. rewrite <- bind_if_filter.
  change (8 * POSITION_STATE_DATA_LEN) with (Z.of_nat 16 * 8).
  rewrite <- bind_seqZ_blocks. change (Z.of_nat 16) with 16.
  apply Forall_bind_ext, Forall_seqZ. intros i Hi.
  apply Forall_bind_ext, Forall_seqZ. intros j Hj.
  rewrite (proj2 (onewire_cb_raise_bit_run _ i j _)), Hps, Hup.
  destruct (position_div_mod i j ltac:(lia)) as [Hd Hm].
  rewrite !bool_decide_land_BIT by lia. rewrite Hbits by lia.
  unfold bitmap_bit. rewrite Hd, Hm.
  destruct (Z.testbit (data_at new i) j), (Z.testbit (data_at (position_state s) i) j);
    simpl; by rewrite ?bool_decide_eq_true_2, ?bool_decide_eq_false_2 by naive_solver.
Qed.

Lemma final_onewire_cb_diff new s :
  is_bitmap new → length (position_state s) = 16%nat →
  position_state (final (onewire_cb_diff new s)) = new.
Proof.
  intros Hnew Hlen. unfold onewire_cb_diff. rewrite final_bind.
  rewrite (proj1 (onewire_cb_raise_run _ _)). by apply onewire_cb_update_bitmap.
Qed.

(** C2: on a board whose [position_state] is the bitmap [old], the diff of
    [onewire_cb] against a bitmap [new] raises one event for each position at
    which [old] and [new] differ and for no other, in ascending order of
    position, each with the bit of [new]; it raises none exactly when the two
    bitmaps are equal; and it leaves [new] in [position_state]. *)
Theorem C2_diff_raises_the_differing_positions (new : list Z) (s : board) :
  is_bitmap (position_state s) → is_bitmap new →
  raised (trace (onewire_cb_diff new s)) =
    (λ p, mk_position_state_changed p (bitmap_bit new p) (uptime_us s `div` 1000))
      <$> differing (position_state s) new
  ∧ (∀ p, p ∈ differing (position_state s) new ↔
          0 ≤ p < 128 ∧ bitmap_bit (position_state s) p ≠ bitmap_bit new p)
  ∧ StronglySorted Z.lt (differing (position_state s) new)
  ∧ (raised (trace (onewire_cb_diff new s)) = [] ↔ position_state s = new)
  ∧ position_state (final (onewire_cb_diff new s)) = new.
Proof.
  intros Hold Hnew. split; [by apply raised_onewire_cb_diff|].
  split; [apply elem_of_differing|]. split; [apply StronglySorted_differing|].
  split.
  - rewrite raised_onewire_cb_diff by done.
    rewrite <- (differing_nil_iff (position_state s) new) by done.
    split; [apply fmap_nil_inv|by intros ->].
  - apply final_onewire_cb_diff; [done|]. apply Hold.
Qed.

Lemma C2_witness :
  raised (trace (onewire_cb_diff [8; 4; 0; 0; 0; 0; 0; 0; 0; 0; 0; 0; 0; 0; 0; 0] board_init)) =
    (λ p, mk_position_state_changed p
            (bitmap_bit [8; 4; 0; 0; 0; 0; 0; 0; 0; 0; 0; 0; 0; 0; 0; 0] p)
            (uptime_us board_init `div` 1000))
      <$> differing (position_state board_init)
            [8; 4; 0; 0; 0; 0; 0; 0; 0; 0; 0; 0; 0; 0; 0; 0]
  ∧ (∀ p, p ∈ differing (position_state board_init)
                 [8; 4; 0; 0; 0; 0; 0; 0; 0; 0; 0; 0; 0; 0; 0; 0] ↔
          0 ≤ p < 128 ∧ bitmap_bit (position_state board_init) p
                        ≠ bitmap_bit [8; 4; 0; 0; 0; 0; 0; 0; 0; 0; 0; 0; 0; 0; 0; 0] p)
  ∧ StronglySorted Z.lt (differing (position_state board_init)
                           [8; 4; 0; 0; 0; 0; 0; 0; 0; 0; 0; 0; 0; 0; 0; 0])
  ∧ (raised (trace (onewire_cb_diff [8; 4; 0; 0; 0; 0; 0; 0; 0; 0; 0; 0; 0; 0; 0; 0]
                      board_init)) = [] ↔
     position_state board_init = [8; 4; 0; 0; 0; 0; 0; 0; 0; 0; 0; 0; 0; 0; 0; 0])
  ∧ position_state (final (onewire_cb_diff
                             [8; 4; 0; 0; 0; 0; 0; 0; 0; 0; 0; 0; 0; 0; 0; 0] board_init))
    = [8; 4; 0; 0; 0; 0; 0; 0; 0; 0; 0; 0; 0; 0; 0; 0].
Proof.
  apply (C2_diff_raises_the_differing_positions
           [8; 4; 0; 0; 0; 0; 0; 0; 0; 0; 0; 0; 0; 0; 0; 0] board_init).
  - apply is_bitmap_board_init.
  - split; [reflexivity|]. repeat constructor; lia.
Defined.

(** The scenario of the specification: all-zero before, bits 3 and 10 set in
    the bitmap diffed: two events, position 3 then position 10, both
    pressed. *)
Example diff_bits_3_and_10 :
  raised (trace (onewire_cb_diff [8; 4; 0; 0; 0; 0; 0; 0; 0; 0; 0; 0; 0; 0; 0; 0] board_init))
  = [mk_position_state_changed 3 true 0; mk_position_state_changed 10 true 0].
Proof. reflexivity. Qed.

(** ** [onewire_cb] *)

Lemma result_onewire_cb_receive s :
  result (onewire_cb_receive s) =
  result (onewire_read_byte (final (k_busy_wait (ONE_PERIOD_US + HALF_PERIOD_US) s))).
Proof.
  unfold onewire_cb_receive. rewrite !result_bind. done.
Qed.

Lemma emits_onewire_read_byte : emits samples_waits_or_logs onewire_read_byte.
Proof.
  intros s. rewrite onewire_read_byte_eq. unfold trace; simpl.
  case_bool_decide; by repeat constructor.
Qed.

Lemma emits_onewire_cb_receive : emits samples_waits_or_logs onewire_cb_receive.
Proof.
  unfold onewire_cb_receive, for_upto.
  apply emits_bind; [by repeat constructor|intros _].
  apply emits_bind; [apply emits_onewire_read_byte|intros data_length].
  apply emits_bind; [|intros _; apply emits_ret].
  case_bool_decide.
  - apply emits_for_loop. intros i.
    apply emits_bind; [apply emits_onewire_read_byte|intros b].
    intros s. unfold store_position_state, modify_position_state.
    case_match; constructor.
  - by repeat constructor.
Qed.

Lemma samples_waits_or_logs_leaves_interrupt t :
  Forall samples_waits_or_logs t → Forall leaves_interrupt t.
Proof. intros H. eapply Forall_impl; [exact H|]. by intros []. Qed.

Lemma samples_waits_or_logs_raised t :
  Forall samples_waits_or_logs t → raised t = [].
Proof.
  induction 1 as [|op t Hop _ IH]; [done|].
  change (op :: t) with ([op] ++ t). rewrite raised_app, IH. by destruct op.
Qed.

Lemma emits_onewire_cb_raise_bit changed i j :
  emits leaves_interrupt (onewire_cb_raise_bit changed i j).
Proof.
  intros s. unfold onewire_cb_raise_bit. case_bool_decide; by repeat constructor.
Qed.

Lemma emits_onewire_cb_diff data : emits leaves_interrupt (onewire_cb_diff data).
Proof.
  unfold onewire_cb_diff, onewire_cb_update, onewire_cb_raise, for_upto.
  apply emits_bind; [apply emits_update_loop|intros changed].
  apply emits_for_loop. intros i. apply emits_for_loop. intros j.
  apply emits_onewire_cb_raise_bit.
Qed.

(** C9: whatever the buffer, the line and the board, the trace of
    [onewire_cb] opens with the interrupt being disabled, closes with it
    being configured for the falling edge again, touches the interrupt
    nowhere in between, and the board it leaves has the interrupt armed. Both
    branches of the test on [data_length] lie in between. *)
Theorem C9_callback_disables_first_and_rearms_last (data : list Z) (s : board) :
  ∃ between,
    trace (onewire_cb data s) =
      IntConfigure GPIO_INT_DISABLE :: between
      ++ [IntConfigure GPIO_INT_EDGE_TO_INACTIVE]
    ∧ Forall leaves_interrupt between
    ∧ int_mode (final (onewire_cb data s)) = GPIO_INT_EDGE_TO_INACTIVE.
Proof.
  unfold onewire_cb. rewrite !trace_bind, !final_bind.
  eexists (trace (onewire_cb_receive _) ++ trace (onewire_cb_diff data _)).
  split; [|split].
  - cbn [trace gpio_pin_interrupt_configure snd app]. by rewrite <- app_assoc.
  - apply Forall_app. split; [|apply emits_onewire_cb_diff].
    apply samples_waits_or_logs_leaves_interrupt, emits_onewire_cb_receive.
  - done.
Qed.

(** Both branches are taken: a length below 16 and one from 16 up. *)
Example onewire_cb_both_paths :
  trace (onewire_cb (replicate 16 0) (set_line_in [1; 0] board_init)) =
    [IntConfigure GPIO_INT_DISABLE; BusyWait 75; PinGet 1; BusyWait 50;
     PinGet 0; BusyWait 50; IntConfigure GPIO_INT_EDGE_TO_INACTIVE]
  ∧ trace (onewire_cb (replicate 16 0) (set_line_in [16] board_init)) =
    [IntConfigure GPIO_INT_DISABLE; BusyWait 75; PinGet 16; BusyWait 50;
     Log "Error, data length was too long: %d" 16;
     IntConfigure GPIO_INT_EDGE_TO_INACTIVE].
Proof. split; reflexivity. Qed.

(** What reception leaves behind when the length read is 16 or more: the
    array as it was, the clock 125 microseconds on. *)
Lemma onewire_cb_receive_too_long s :
  sizeof_position_state ≤ result (onewire_cb_receive s) →
  position_state (final (onewire_cb_receive s)) = position_state s
  ∧ uptime_us (final (onewire_cb_receive s)) = uptime_us s + 125.
Proof.
  intros Hlong. rewrite result_onewire_cb_receive in Hlong.
  unfold onewire_cb_receive. rewrite !final_bind.
  rewrite bool_decide_eq_false_2 by lia.
  rewrite onewire_read_byte_eq. split; [done|].
  change HALF_PERIOD_US with 25. change ONE_PERIOD_US with 50. simpl. lia.
Qed.

(** When the length read is 16 or more, [onewire_cb] logs and goes on to the
    diff all the same: it raises an event for every position at which [data]
    differs from [position_state], and overwrites [position_state]. *)
Lemma onewire_cb_too_long data s :
  is_bitmap (position_state s) → is_bitmap data →
  sizeof_position_state ≤ result (onewire_cb_receive (set_int_mode GPIO_INT_DISABLE s)) →
  raised (trace (onewire_cb data s)) =
    (λ p, mk_position_state_changed p (bitmap_bit data p)
            ((uptime_us s + 125) `div` 1000))
      <$> differing (position_state s) data
  ∧ position_state (final (onewire_cb data s)) = data.
Proof.
  intros Hold Hdata Hlong.
  destruct (onewire_cb_receive_too_long _ Hlong) as [Hps Hup].
  change (position_state (set_int_mode GPIO_INT_DISABLE s))
    with (position_state s) in Hps.
  change (uptime_us (set_int_mode GPIO_INT_DISABLE s)) with (uptime_us s) in Hup.
  pose proof (raised_onewire_cb_diff data
    (final (onewire_cb_receive (set_int_mode GPIO_INT_DISABLE s)))
    ltac:(by rewrite Hps) Hdata) as Hev.
  pose proof (final_onewire_cb_diff data
    (final (onewire_cb_receive (set_int_mode GPIO_INT_DISABLE s)))
    Hdata ltac:(rewrite Hps; apply Hold)) as Hfin.
  unfold onewire_cb. rewrite !trace_bind, !raised_app, !final_bind. split.
  - rewrite (samples_waits_or_logs_raised _ (emits_onewire_cb_receive _)).
    cbn [trace gpio_pin_interrupt_configure snd]. rewrite app_nil_r.
    change (final (gpio_pin_interrupt_configure GPIO_INT_DISABLE s))
      with (set_int_mode GPIO_INT_DISABLE s).
    cbn [raised mbind list_bind app]. by rewrite Hev, Hps, Hup.
  - exact Hfin.
Qed.

(** What [gpio_pin_get] returns in Zephyr is 0, 1 or a negative error
    number. On a line of such levels the length read is 0 or 1, since
    [onewire_read_byte] takes one sample: the branch of line 101 is not
    taken. *)
Lemma data_length_at_most_1 s :
  Forall (λ level, level ≤ 1) (line_in s) →
  0 ≤ result (onewire_cb_receive s) ≤ 1
  ∧ bool_decide (result (onewire_cb_receive s) < sizeof_position_state) = true.
Proof.
  intros Hline.
  assert (0 ≤ result (onewire_cb_receive s) ≤ 1) as Hr.
  { rewrite result_onewire_cb_receive, onewire_read_byte_eq.
    unfold result, pin_level; simpl.
    destruct (line_in s) as [|level rest]; simpl; [done|].
    apply Forall_cons in Hline as [Hlevel _].
    case_bool_decide; [|lia]. rewrite u8_id by lia. lia. }
  split; [exact Hr|]. apply bool_decide_eq_true_2.
  change sizeof_position_state with 16. lia.
Qed.

(** ** How many bytes reception reads *)

Lemma sampled_app t1 t2 : sampled (t1 ++ t2) = sampled t1 ++ sampled t2.
Proof. apply bind_app. Qed.

Lemma sampled_onewire_read_byte s :
  length (sampled (trace (onewire_read_byte s))) = 1%nat.
Proof.
  rewrite onewire_read_byte_eq. unfold trace; simpl. by case_bool_decide.
Qed.

Lemma result_onewire_read_byte_range s : 0 ≤ result (onewire_read_byte s) < 256.
Proof.
  rewrite onewire_read_byte_eq. unfold result; simpl.
  case_bool_decide; [apply u8_range|lia].
Qed.

Lemma sampled_for_loop body (c : nat) :
  (∀ j s, length (sampled (trace (body j s))) = c) →
  ∀ n i s, length (sampled (trace (for_loop n i body s))) = (n * c)%nat.
Proof.
  intros Hb. induction n as [|n IH]; intros i s; [done|].
  cbn [for_loop]. rewrite trace_bind, sampled_app, length_app, Hb, IH. lia.
Qed.

(** One byte for the length, and then as many as the length says when it is
    below 16, none otherwise. *)
Lemma sampled_onewire_cb_receive s :
  Z.of_nat (length (sampled (trace (onewire_cb_receive s)))) =
  1 + (if bool_decide (result (onewire_cb_receive s) < sizeof_position_state)
       then result (onewire_cb_receive s) else 0).
Proof.
  rewrite result_onewire_cb_receive.
  pose proof (result_onewire_read_byte_range
    (final (k_busy_wait (ONE_PERIOD_US + HALF_PERIOD_US) s))) as Hr.
  unfold onewire_cb_receive.
  rewrite !trace_bind, !sampled_app, !length_app, sampled_onewire_read_byte.
  case_bool_decide.
  - unfold for_upto. rewrite (sampled_for_loop _ 1).
    + cbn [trace k_busy_wait snd sampled mbind list_bind app length mret M_ret].
      lia.
    + intros j s'. rewrite trace_bind, sampled_app, length_app,
        sampled_onewire_read_byte.
      unfold store_position_state, modify_position_state. by case_match.
  - cbn [trace k_busy_wait log snd sampled mbind list_bind app length mret M_ret].
    lia.
Qed.

(** C6: what the code does after the delay. On every board the first byte
    it reads is the value of [data_length], and it then reads as many bytes
    as that value says; on the levels 0, 1, 1 it reads one byte, takes it as
    a length of 0 and reads no more, where a start symbol, a length of 1 and
    one payload byte were on the line; and the bytes it does read go straight
    into [position_state]. *)
Theorem C6_first_byte_read_is_taken_as_length :
  (∀ s, result (onewire_cb_receive s) =
        result (onewire_read_byte
                  (final (k_busy_wait (sample_offset_of ONE_PERIOD_US) s))))
  ∧ (∀ s, Z.of_nat (length (sampled (trace (onewire_cb_receive s)))) =
          1 + (if bool_decide (result (onewire_cb_receive s) < sizeof_position_state)
               then result (onewire_cb_receive s) else 0))
  ∧ (result (onewire_cb_receive (set_line_in [0; 1; 1] board_init)) = 0
     ∧ trace (onewire_cb_receive (set_line_in [0; 1; 1] board_init)) =
       [BusyWait 75; PinGet 0; BusyWait 50]
     ∧ line_in (final (onewire_cb_receive (set_line_in [0; 1; 1] board_init))) = [1; 1])
  ∧ (result (onewire_cb_receive
               (set_line_in [1; 0] (set_position_state (λ _, replicate 16 255) board_init)))
     = 1
     ∧ position_state
         (final (onewire_cb_receive
                   (set_line_in [1; 0]
                      (set_position_state (λ _, replicate 16 255) board_init))))
       = 0 :: replicate 15 255).
Proof.
  split; [apply result_onewire_cb_receive|].
  split; [apply sampled_onewire_cb_receive|]. repeat split; reflexivity.
Qed.

(** The transmitter's frame for position 3, and the receiver run on its
    levels in the order driven: the level of the start symbol is read as the
    length, the level of the length as the one payload byte. *)
Example receive_own_frame_in_order :
  driven (trace (zmk_split_onewire_position_pressed 3 board_init)) =
    [1; 0; 0; 0; 0; 0; 0; 0; 0; 0; 0; 0; 0; 0; 0; 0; 0; 0; 1]
  ∧ result (loopback onewire_cb_receive
              (trace (zmk_split_onewire_position_pressed 3 board_init))) =
    Z.land FRAMING_SYMBOL 1
  ∧ trace (loopback onewire_cb_receive
             (trace (zmk_split_onewire_position_pressed 3 board_init))) =
    [BusyWait 75; PinGet 1; BusyWait 50; PinGet 0; BusyWait 50].
Proof. repeat split; reflexivity. Qed.

(** * Further properties of the transmitter *)

(** Two bitmaps with the same 128 bits are the same bitmap. *)
Lemma bitmap_ext bm1 bm2 :
  is_bitmap bm1 → is_bitmap bm2 →
  (∀ q, 0 ≤ q < 128 → bitmap_bit bm1 q = bitmap_bit bm2 q) → bm1 = bm2.
Proof.
  intros [Hl1 Hb1] [Hl2 Hb2] Hbits.
  change (Z.to_nat POSITION_STATE_DATA_LEN) with 16%nat in Hl1, Hl2.
  apply list_eq_data_at; [congruence|]. intros i Hi.
  apply byte_eq_bits; [by apply data_at_range..|]. intros j Hj.
  destruct (position_div_mod i j Hj) as [Hd Hm].
  specialize (Hbits (i * 8 + j) ltac:(lia)). unfold bitmap_bit in Hbits.
  by rewrite Hd, Hm in Hbits.
Qed.

Lemma memory_zmk_split_onewire_position v position s :
  memory (final (zmk_split_onewire_position v position s)) =
  memory (final (modify_position_state (position `quot` 8)
                   (λ var, WRITE_BIT var (position `rem` 8) v) s)).
Proof.
  destruct v; unfold zmk_split_onewire_position,
    zmk_split_onewire_position_pressed, zmk_split_onewire_position_released;
    rewrite final_bind; apply keeps_memory_send_onewire_data.
Qed.

Lemma trace_zmk_split_onewire_position v position s :
  length (position_state s) = 16%nat →
  trace (zmk_split_onewire_position v position s) =
  frame_trace 16 (position_state (final (zmk_split_onewire_position v position s))).
Proof.
  intros Hlen. destruct v; unfold zmk_split_onewire_position,
    zmk_split_onewire_position_pressed, zmk_split_onewire_position_released;
    by apply trace_write_then_send.
Qed.

Lemma zmk_split_onewire_position_writes v position s :
  0 ≤ position < 128 → is_bitmap (position_state s) →
  writes_only_bit position v s (final (zmk_split_onewire_position v position s)).
Proof.
  intros Hp Hbm. apply modify_writes_only_bit; [done..|].
  apply memory_zmk_split_onewire_position.
Qed.

(** The bitmap an entry point leaves, bit by bit. *)
Lemma bitmap_bit_zmk_split_onewire_position v position s q :
  0 ≤ position < 128 → is_bitmap (position_state s) → 0 ≤ q < 128 →
  bitmap_bit (position_state (final (zmk_split_onewire_position v position s))) q =
  if bool_decide (q = position) then v else bitmap_bit (position_state s) q.
Proof.
  intros Hp Hbm Hq.
  destruct (zmk_split_onewire_position_writes v position s Hp Hbm) as (_ & _ & Hbits & _).
  by apply Hbits.
Qed.

Lemma is_bitmap_zmk_split_onewire_position v position s :
  0 ≤ position < 128 → is_bitmap (position_state s) →
  is_bitmap (position_state (final (zmk_split_onewire_position v position s))).
Proof.
  intros Hp Hbm.
  by destruct (zmk_split_onewire_position_writes v position s Hp Hbm) as (_ & ? & _).
Qed.

(** X1: a call repeated with the same position and state writes nothing
    new: the bitmap stays as the first call left it, and the second call
    sends, operation for operation, the frame the first one sent. *)
Theorem X1_repeated_call_resends_the_same_frame (v : bool) (position : Z) (s : board) :
  0 ≤ position < 128 → is_bitmap (position_state s) →
  position_state (final (zmk_split_onewire_position v position
                           (final (zmk_split_onewire_position v position s))))
  = position_state (final (zmk_split_onewire_position v position s))
  ∧ trace (zmk_split_onewire_position v position
             (final (zmk_split_onewire_position v position s)))
    = trace (zmk_split_onewire_position v position s).
Proof.
  intros Hp Hbm.
  pose proof (is_bitmap_zmk_split_onewire_position v position s Hp Hbm) as Hbm1.
  pose proof (is_bitmap_zmk_split_onewire_position v position _ Hp Hbm1) as Hbm2.
  assert (position_state (final (zmk_split_onewire_position v position
                            (final (zmk_split_onewire_position v position s))))
          = position_state (final (zmk_split_onewire_position v position s))) as Heq.
  { apply bitmap_ext; [done..|]. intros q Hq.
    rewrite !bitmap_bit_zmk_split_onewire_position by done.
    by case_bool_decide. }
  split; [done|].
  rewrite !trace_zmk_split_onewire_position by (apply Hbm || apply Hbm1).
  by rewrite Heq.
Qed.

Lemma X1_witness :
  position_state (final (zmk_split_onewire_position true 10
                           (final (zmk_split_onewire_position true 10 board_init))))
  = position_state (final (zmk_split_onewire_position true 10 board_init))
  ∧ trace (zmk_split_onewire_position true 10
             (final (zmk_split_onewire_position true 10 board_init)))
    = trace (zmk_split_onewire_position true 10 board_init).
Proof.
  apply (X1_repeated_call_resends_the_same_frame true 10 board_init).
  - lia.
  - apply is_bitmap_board_init.
Defined.

(** X2: the last write to a position wins, and a press followed by the
    release of the same position gives back the bitmap of before when the
    position was released to begin with (and the other way round). *)
Theorem X2_press_then_release_restores_the_bitmap (v : bool) (position : Z) (s : board) :
  0 ≤ position < 128 → is_bitmap (position_state s) →
  bitmap_bit (position_state
                (final (zmk_split_onewire_position (negb v) position
                          (final (zmk_split_onewire_position v position s)))))
             position = negb v
  ∧ (bitmap_bit (position_state s) position = negb v →
     position_state (final (zmk_split_onewire_position (negb v) position
                              (final (zmk_split_onewire_position v position s))))
     = position_state s).
Proof.
  intros Hp Hbm.
  pose proof (is_bitmap_zmk_split_onewire_position v position s Hp Hbm) as Hbm1.
  pose proof (is_bitmap_zmk_split_onewire_position (negb v) position _ Hp Hbm1) as Hbm2.
  split.
  - rewrite bitmap_bit_zmk_split_onewire_position by done.
    by rewrite bool_decide_eq_true_2.
  - intros Hwas. apply bitmap_ext; [done..|]. intros q Hq.
    rewrite !bitmap_bit_zmk_split_onewire_position by done.
    case_bool_decide; by subst.
Qed.

Lemma X2_witness :
  bitmap_bit (position_state
                (final (zmk_split_onewire_position (negb true) 10
                          (final (zmk_split_onewire_position true 10 board_init)))))
             10 = negb true
  ∧ (bitmap_bit (position_state board_init) 10 = negb true →
     position_state (final (zmk_split_onewire_position (negb true) 10
                              (final (zmk_split_onewire_position true 10 board_init))))
     = position_state board_init).
Proof.
  apply (X2_press_then_release_restores_the_bitmap true 10 board_init).
  - lia.
  - apply is_bitmap_board_init.
Defined.

(** X3: calls on two different positions commute: the bitmap they leave does
    not depend on which came first. *)
Theorem X3_calls_on_different_positions_commute
    (v w : bool) (p q : Z) (s : board) :
  0 ≤ p < 128 → 0 ≤ q < 128 → p ≠ q → is_bitmap (position_state s) →
  position_state (final (zmk_split_onewire_position w q
                           (final (zmk_split_onewire_position v p s))))
  = position_state (final (zmk_split_onewire_position v p
                             (final (zmk_split_onewire_position w q s)))).
Proof.
  intros Hp Hq Hne Hbm.
  pose proof (is_bitmap_zmk_split_onewire_position v p s Hp Hbm) as Hbp.
  pose proof (is_bitmap_zmk_split_onewire_position w q s Hq Hbm) as Hbq.
  apply bitmap_ext; [by apply is_bitmap_zmk_split_onewire_position..|].
  intros r Hr. rewrite !bitmap_bit_zmk_split_onewire_position by done.
  repeat case_bool_decide; by subst.
Qed.

Lemma X3_witness :
  position_state (final (zmk_split_onewire_position false 10
                           (final (zmk_split_onewire_position true 3 board_init))))
  = position_state (final (zmk_split_onewire_position true 3
                             (final (zmk_split_onewire_position false 10 board_init)))).
Proof.
  apply (X3_calls_on_different_positions_commute true false 3 10 board_init).
  - lia.
  - lia.
  - lia.
  - apply is_bitmap_board_init.
Defined.

(** ** Time *)

Lemma waited_app t1 t2 : waited (t1 ++ t2) = waited t1 + waited t2.
Proof.
  induction t1 as [|op t1 IH]; [done|]. simpl. rewrite IH. destruct op; lia.
Qed.

Lemma timed_ret {A} (a : A) : timed (mret a).
Proof. intros s. change (uptime_us s = uptime_us s + 0). lia. Qed.

Lemma timed_bind {A B} (m : M A) (k : A → M B) :
  timed m → (∀ a, timed (k a)) → timed (m ≫= k).
Proof.
  intros Hm Hk s. rewrite final_bind, trace_bind, waited_app, Hk, Hm. lia.
Qed.

Lemma timed_for_loop body n i : (∀ j, timed (body j)) → timed (for_loop n i body).
Proof.
  intros Hb. revert i. induction n as [|n IH]; intros i; cbn [for_loop].
  - apply timed_ret.
  - apply timed_bind; auto.
Qed.

Ltac timed_prim :=
  intros ?; unfold final, trace, waited, gpio_pin_set, gpio_pin_get, k_busy_wait,
    k_uptime_get, log, ZMK_EVENT_RAISE, gpio_pin_interrupt_configure,
    load_position_state, store_position_state, modify_position_state;
  repeat case_match; simpl; lia.

Lemma timed_k_busy_wait usec : timed (k_busy_wait usec).
Proof. timed_prim. Qed.

Lemma timed_modify_position_state i f : timed (modify_position_state i f).
Proof. timed_prim. Qed.

Lemma timed_send_bits n byte : timed (send_bits n byte).
Proof.
  revert byte. induction n as [|n IH]; intros byte; cbn [send_bits].
  - apply timed_ret.
  - apply timed_bind; [timed_prim|intros _].
    apply timed_bind; [apply timed_k_busy_wait|intros _; apply IH].
Qed.

Lemma timed_send_onewire_data len : timed (send_onewire_data len).
Proof.
  unfold send_onewire_data, onewire_start_transmission, onewire_end_transmission,
    for_upto, onewire_send_byte.
  repeat first [ apply timed_bind | apply timed_for_loop | apply timed_send_bits
               | progress intros ];
    timed_prim.
Qed.

Lemma timed_zmk_split_onewire_position v position :
  timed (zmk_split_onewire_position v position).
Proof.
  destruct v; unfold zmk_split_onewire_position,
    zmk_split_onewire_position_pressed, zmk_split_onewire_position_released;
    (apply timed_bind; [apply timed_modify_position_state|intros _]);
    apply timed_send_onewire_data.
Qed.

Lemma waited_payload (payload : list Z) :
  waited (payload ≫= byte_trace) = ONE_PERIOD_US * Z.of_nat (length payload).
Proof.
  induction payload as [|b l IH]; [done|].
  rewrite bind_cons, waited_app, IH, byte_trace_eq. simpl length.
  unfold ONE_PERIOD_US. simpl waited. lia.
Qed.

Lemma waited_frame_trace len payload :
  waited (frame_trace len payload) = ONE_PERIOD_US * (2 + Z.of_nat (length payload)).
Proof.
  unfold frame_trace. rewrite !waited_app, waited_payload, !byte_trace_eq.
  unfold ONE_PERIOD_US. simpl waited. lia.
Qed.

Lemma trace_modify_position_state i f s : trace (modify_position_state i f s) = [].
Proof. unfold modify_position_state. by case_match. Qed.

(** The trace of an entry point on any board: the frame of the 16 cells read
    after the write. *)
Lemma trace_zmk_split_onewire_position_cells v position s :
  ∃ payload, length payload = 16%nat
    ∧ trace (zmk_split_onewire_position v position s) = frame_trace 16 payload.
Proof.
  eexists (data_at _ <$> seqZ 0 16). split.
  - by rewrite length_fmap, length_seqZ.
  - destruct v; unfold zmk_split_onewire_position,
      zmk_split_onewire_position_pressed, zmk_split_onewire_position_released;
      rewrite trace_bind, trace_modify_position_state, app_nil_l;
      apply trace_send_onewire_data.
Qed.

(** X4: a call blocks its caller for 18 bit periods, 900 microseconds,
    whatever the position and the board: one period for each of the 18 bytes
    handed to [onewire_send_byte]. *)
Theorem X4_call_blocks_for_18_bit_periods (v : bool) (position : Z) (s : board) :
  waited (trace (zmk_split_onewire_position v position s)) = 18 * ONE_PERIOD_US
  ∧ uptime_us (final (zmk_split_onewire_position v position s)) = uptime_us s + 900.
Proof.
  destruct (trace_zmk_split_onewire_position_cells v position s) as (l & Hl & Ht).
  assert (waited (trace (zmk_split_onewire_position v position s)) = 900) as Hw
    by (rewrite Ht, waited_frame_trace, Hl; reflexivity).
  split; [exact Hw|]. by rewrite timed_zmk_split_onewire_position, Hw.
Qed.

(** ** What a transmission is made of *)

Lemma emits_send_bits n byte : emits drives_or_waits (send_bits n byte).
Proof.
  revert byte. induction n as [|n IH]; intros byte; cbn [send_bits].
  - apply emits_ret.
  - apply emits_bind; [by repeat constructor|intros _].
    apply emits_bind; [by repeat constructor|intros _; apply IH].
Qed.

Lemma Forall_frame_trace len payload : Forall drives_or_waits (frame_trace len payload).
Proof.
  unfold frame_trace. rewrite !Forall_app. split; [apply emits_send_bits|].
  split; [apply emits_send_bits|]. split; [|by repeat constructor].
  apply Forall_bind, Forall_forall. intros b _. apply emits_send_bits.
Qed.

Lemma keeps_environment_send_onewire_data len :
  keeps (λ s, (line_in s, int_mode s)) (send_onewire_data len).
Proof.
  unfold send_onewire_data, onewire_start_transmission, onewire_end_transmission,
    for_upto, onewire_send_byte.
  repeat first [ apply keeps_bind | apply keeps_for_loop | apply keeps_send_bits
               | progress intros ];
    by intros s.
Qed.

(** X5: a call only drives the line and waits: it never samples the line,
    never touches the interrupt, logs nothing and raises no event; the last
    thing it does is to release the line high; and it leaves the pending
    line input and the interrupt configuration as they were. *)
Theorem X5_call_only_drives_and_waits (v : bool) (position : Z) (s : board) :
  Forall drives_or_waits (trace (zmk_split_onewire_position v position s))
  ∧ last (trace (zmk_split_onewire_position v position s)) = Some (PinSet 1)
  ∧ line_in (final (zmk_split_onewire_position v position s)) = line_in s
  ∧ int_mode (final (zmk_split_onewire_position v position s)) = int_mode s.
Proof.
  destruct (trace_zmk_split_onewire_position_cells v position s) as (l & Hl & Ht).
  split; [rewrite Ht; apply Forall_frame_trace|].
  split; [rewrite Ht; unfold frame_trace; by rewrite !app_assoc, last_snoc|].
  assert ((line_in (final (zmk_split_onewire_position v position s)),
           int_mode (final (zmk_split_onewire_position v position s)))
          = (line_in s, int_mode s)) as Heq.
  { destruct v; unfold zmk_split_onewire_position,
      zmk_split_onewire_position_pressed, zmk_split_onewire_position_released;
      rewrite final_bind;
      rewrite (keeps_environment_send_onewire_data _ _);
      unfold modify_position_state; by case_match. }
  by injection Heq.
Qed.

(** ** What the line carries *)

Lemma land_1_u8_WRITE_BIT var bit v :
  0 < bit < 8 → Z.land (u8 (WRITE_BIT var bit v)) 1 = Z.land var 1.
Proof.
  intros Hbit. apply Z.bits_inj_iff'. intros n Hn. rewrite !Z.land_spec.
  change 1 with (BIT 0). rewrite testbit_BIT by lia.
  case_bool_decide as Hn0; [subst n|by rewrite !andb_false_r].
  rewrite testbit_u8, testbit_WRITE_BIT by lia.
  by rewrite bool_decide_eq_false_2 by lia.
Qed.

(** X6: what a call puts on the line, for a board with its 16 bytes: the
    level 1 for the start symbol, the level 0 for the length, bit 0 of each
    byte of the bitmap in array order, and the idle level: 19 levels. *)
Theorem X6_levels_of_a_call (v : bool) (position : Z) (s : board) :
  length (position_state s) = 16%nat →
  driven (trace (zmk_split_onewire_position v position s)) =
  1 :: 0 :: ((λ b, Z.land b 1)
               <$> position_state (final (zmk_split_onewire_position v position s)))
  ++ [1].
Proof.
  intros Hlen. rewrite trace_zmk_split_onewire_position by done.
  apply driven_frame_trace.
Qed.

Lemma X6_witness :
  driven (trace (zmk_split_onewire_position true 8 board_init)) =
  1 :: 0 :: ((λ b, Z.land b 1)
               <$> position_state (final (zmk_split_onewire_position true 8 board_init)))
  ++ [1].
Proof. exact (X6_levels_of_a_call true 8 board_init eq_refl). Defined.

(** X7: a press or a release of a position that is not a multiple of 8
    cannot be told on the line: the levels the call drives are those of
    sending the bitmap as it was before the call. *)
Theorem X7_call_off_bit_0_is_invisible_on_the_line (v : bool) (position : Z) (s : board) :
  0 ≤ position < 128 → position `mod` 8 ≠ 0 → is_bitmap (position_state s) →
  driven (trace (zmk_split_onewire_position v position s)) =
  driven (trace (send_onewire_data sizeof_position_state s)).
Proof.
  intros Hp Hoff [Hlen Hbytes].
  change (Z.to_nat POSITION_STATE_DATA_LEN) with 16%nat in Hlen.
  rewrite trace_zmk_split_onewire_position by done.
  rewrite trace_send_onewire_data. change sizeof_position_state with (Z.of_nat 16).
  rewrite <- Hlen at 2. rewrite data_at_seqZ, !driven_frame_trace.
  do 3 f_equal.
  pose proof (memory_zmk_split_onewire_position v position s) as Hm.
  rewrite final_modify_position_state in Hm. unfold in_bounds in Hm.
  rewrite Z.quot_div_nonneg, Z.rem_mod_nonneg in Hm by lia.
  assert (0 ≤ position `div` 8 < 16) as Hi
    by (split; [apply Z.div_pos|apply Z.div_lt_upper_bound]; lia).
  rewrite bool_decide_eq_true_2 in Hm by lia.
  injection Hm as -> _.
  pose proof (Z.mod_pos_bound position 8 ltac:(lia)) as Hj.
  rewrite (list_fmap_alter _ _ id).
  - by rewrite list_alter_id.
  - apply Forall_forall. intros b _. apply land_1_u8_WRITE_BIT. lia.
Qed.

Lemma X7_witness :
  driven (trace (zmk_split_onewire_position true 10 board_init)) =
  driven (trace (send_onewire_data sizeof_position_state board_init)).
Proof.
  apply (X7_call_off_bit_0_is_invisible_on_the_line true 10 board_init).
  - lia.
  - discriminate.
  - apply is_bitmap_board_init.
Defined.

(** * Further properties of the receiver *)

Lemma pin_level_k_busy_wait usec s : pin_level (final (k_busy_wait usec s)) = pin_level s.
Proof. done. Qed.

(** X8: a read error on the length byte does not stop the callback's
    reception: the negative value is logged, the length is taken as 0, the
    sample is consumed and its bit period waited out, nothing more is read
    and [position_state] is left to the diff as it was. *)
Theorem X8_read_error_on_the_length_is_an_empty_frame (s : board) :
  pin_level s < 0 →
  result (onewire_cb_receive s) = 0
  ∧ trace (onewire_cb_receive s) =
    [BusyWait (ONE_PERIOD_US + HALF_PERIOD_US); PinGet (pin_level s);
     Log "Pin read error: %d" (pin_level s); BusyWait ONE_PERIOD_US]
  ∧ line_in (final (onewire_cb_receive s)) = tail (line_in s)
  ∧ position_state (final (onewire_cb_receive s)) = position_state s.
Proof.
  intros Herr.
  assert (result (onewire_cb_receive s) = 0) as Hres.
  { rewrite result_onewire_cb_receive, onewire_read_byte_eq, pin_level_k_busy_wait.
    unfold result; simpl. by rewrite bool_decide_eq_false_2 by lia. }
  split; [done|]. rewrite result_onewire_cb_receive in Hres.
  unfold onewire_cb_receive.
  rewrite !trace_bind, !final_bind, Hres.
  rewrite bool_decide_eq_true_2 by done.
  rewrite onewire_read_byte_eq, pin_level_k_busy_wait.
  rewrite bool_decide_eq_false_2 by lia. done.
Qed.

Lemma X8_witness :
  result (onewire_cb_receive (set_line_in [-5; 1] board_init)) = 0
  ∧ trace (onewire_cb_receive (set_line_in [-5; 1] board_init)) =
    [BusyWait (ONE_PERIOD_US + HALF_PERIOD_US);
     PinGet (pin_level (set_line_in [-5; 1] board_init));
     Log "Pin read error: %d" (pin_level (set_line_in [-5; 1] board_init));
     BusyWait ONE_PERIOD_US]
  ∧ line_in (final (onewire_cb_receive (set_line_in [-5; 1] board_init)))
    = tail (line_in (set_line_in [-5; 1] board_init))
  ∧ position_state (final (onewire_cb_receive (set_line_in [-5; 1] board_init)))
    = position_state (set_line_in [-5; 1] board_init).
Proof.
  apply (X8_read_error_on_the_length_is_an_empty_frame (set_line_in [-5; 1] board_init)).
  reflexivity.
Defined.

(** ** Stores stay inside the array *)

Lemma for_loop_invariant (I : board → Prop) body n i :
  (∀ j s, i ≤ j < i + Z.of_nat n → I s → I (final (body j s))) →
  ∀ s, I s → I (final (for_loop n i body s)).
Proof.
  revert i. induction n as [|n IH]; intros i Hb s Hs; [done|].
  cbn [for_loop]. rewrite final_bind. apply IH.
  - intros j s' Hj. apply Hb. lia.
  - apply Hb; [lia|done].
Qed.

Lemma sound_store_position_state w i v s :
  0 ≤ i < 16 → sound w s → sound w (final (store_position_state i v s)).
Proof.
  intros Hi [Hlen Hw]. split; [by rewrite length_store_position_state|].
  pose proof (final_modify_position_state i (λ _, v) s) as Hm.
  unfold in_bounds in Hm. rewrite bool_decide_eq_true_2 in Hm by lia.
  unfold store_position_state. unfold memory in Hm. by injection Hm as _ ->.
Qed.

Lemma sound_onewire_read_byte w s : sound w s → sound w (final (onewire_read_byte s)).
Proof. rewrite onewire_read_byte_eq. done. Qed.

Lemma sound_onewire_cb_receive w s : sound w s → sound w (final (onewire_cb_receive s)).
Proof.
  intros Hs. unfold onewire_cb_receive. rewrite !final_bind.
  set (s1 := final (k_busy_wait (ONE_PERIOD_US + HALF_PERIOD_US) s)).
  assert (sound w (final (onewire_read_byte s1))) as Hs2
    by by apply sound_onewire_read_byte.
  case_bool_decide as Hlt; [|done].
  unfold for_upto. apply (for_loop_invariant (sound w)); [|done].
  intros j s' Hj Hs'. rewrite final_bind.
  apply sound_store_position_state; [|by apply sound_onewire_read_byte].
  pose proof (result_onewire_read_byte_range s1) as Hr.
  change sizeof_position_state with 16 in Hlt. lia.
Qed.

Lemma sound_update_loop w data n i changed s :
  0 ≤ i → i + Z.of_nat n ≤ 16 → sound w s →
  sound w (final (update_loop data n i changed s)).
Proof.
  revert i changed s. induction n as [|n IH]; intros i changed s Hi Hn Hs; [done|].
  rewrite update_loop_S. apply IH; [lia..|].
  apply sound_store_position_state; [lia|done].
Qed.

Lemma sound_onewire_cb_diff w data s : sound w s → sound w (final (onewire_cb_diff data s)).
Proof.
  intros Hs. unfold onewire_cb_diff. rewrite final_bind.
  rewrite (proj1 (onewire_cb_raise_run _ _)).
  apply sound_update_loop; [done| |done].
  change (Z.to_nat POSITION_STATE_DATA_LEN) with 16%nat. lia.
Qed.

Lemma final_onewire_cb data s :
  final (onewire_cb data s) =
  set_int_mode GPIO_INT_EDGE_TO_INACTIVE
    (final (onewire_cb_diff data
              (final (onewire_cb_receive (set_int_mode GPIO_INT_DISABLE s))))).
Proof. unfold onewire_cb. by rewrite !final_bind. Qed.

(** X9: the callback never stores outside [position_state], whatever the
    line carries and whatever the buffer holds: the payload loop runs below a
    length it has checked against the size of the array, the diff loops run
    to the size of the array, and the array keeps its 16 bytes. *)
Theorem X9_callback_stores_stay_inside_the_array (data : list Z) (s : board) :
  length (position_state s) = 16%nat →
  stray_writes (final (onewire_cb data s)) = stray_writes s
  ∧ length (position_state (final (onewire_cb data s))) = 16%nat.
Proof.
  intros Hlen. rewrite final_onewire_cb.
  assert (sound (stray_writes s)
            (final (onewire_cb_diff data
                      (final (onewire_cb_receive (set_int_mode GPIO_INT_DISABLE s))))))
    as [Hl Hw] by by apply sound_onewire_cb_diff, sound_onewire_cb_receive.
  done.
Qed.

Lemma X9_witness :
  stray_writes (final (onewire_cb [1; 2; 3] (set_line_in [1; 0] board_init)))
  = stray_writes (set_line_in [1; 0] board_init)
  ∧ length (position_state (final (onewire_cb [1; 2; 3] (set_line_in [1; 0] board_init))))
    = 16%nat.
Proof.
  exact (X9_callback_stores_stay_inside_the_array [1; 2; 3]
           (set_line_in [1; 0] board_init) eq_refl).
Defined.

(** X10: whatever the line carried, the callback leaves the buffer it
    diffed in [position_state]: the bytes reception stored there are
    overwritten by lines 105-108. *)
Theorem X10_callback_leaves_the_buffer_in_position_state (data : list Z) (s : board) :
  is_bitmap data → length (position_state s) = 16%nat →
  position_state (final (onewire_cb data s)) = data.
Proof.
  intros Hdata Hlen. rewrite final_onewire_cb.
  change (position_state (set_int_mode ?m ?b)) with (position_state b).
  apply final_onewire_cb_diff; [done|].
  by apply (sound_onewire_cb_receive (stray_writes s)).
Qed.

Lemma X10_witness :
  position_state (final (onewire_cb [8; 4; 0; 0; 0; 0; 0; 0; 0; 0; 0; 0; 0; 0; 0; 0]
                           (set_line_in [1; 1] board_init)))
  = [8; 4; 0; 0; 0; 0; 0; 0; 0; 0; 0; 0; 0; 0; 0; 0].
Proof.
  apply (X10_callback_leaves_the_buffer_in_position_state
           [8; 4; 0; 0; 0; 0; 0; 0; 0; 0; 0; 0; 0; 0; 0; 0]
           (set_line_in [1; 1] board_init)).
  - split; [reflexivity|]. repeat constructor; lia.
  - reflexivity.
Defined.

(** ** What the callback is made of, how often it samples, how long it takes *)

Lemma emits_onewire_cb_diff_logs_or_raises data :
  emits logs_or_raises (onewire_cb_diff data).
Proof.
  unfold onewire_cb_diff, onewire_cb_update, onewire_cb_raise, for_upto.
  apply emits_bind; [apply emits_update_loop|intros changed].
  apply emits_for_loop. intros i. apply emits_for_loop. intros j.
  intros s. unfold onewire_cb_raise_bit. case_bool_decide; by repeat constructor.
Qed.

Lemma logs_or_raises_quiet t :
  Forall logs_or_raises t → driven t = [] ∧ sampled t = [] ∧ waited t = 0.
Proof.
  induction 1 as [|op t Hop _ (IH1 & IH2 & IH3)]; [done|].
  change (op :: t) with ([op] ++ t).
  rewrite driven_app, sampled_app, waited_app, IH1, IH2, IH3. by destruct op.
Qed.

Lemma samples_waits_or_logs_driven t : Forall samples_waits_or_logs t → driven t = [].
Proof.
  induction 1 as [|op t Hop _ IH]; [done|].
  change (op :: t) with ([op] ++ t). rewrite driven_app, IH. by destruct op.
Qed.

Lemma waited_for_loop body (c : Z) :
  (∀ j s, waited (trace (body j s)) = c) →
  ∀ n i s, waited (trace (for_loop n i body s)) = Z.of_nat n * c.
Proof.
  intros Hb. induction n as [|n IH]; intros i s; [done|].
  cbn [for_loop]. rewrite trace_bind, waited_app, Hb, IH. lia.
Qed.

Lemma waited_onewire_read_byte s : waited (trace (onewire_read_byte s)) = ONE_PERIOD_US.
Proof.
  rewrite onewire_read_byte_eq. unfold trace; simpl. case_bool_decide; simpl; lia.
Qed.

Lemma trace_k_busy_wait usec s : trace (k_busy_wait usec s) = [BusyWait usec].
Proof. done. Qed.

Lemma trace_mret {A} (a : A) s : trace ((mret a : M A) s) = [].
Proof. done. Qed.

Lemma trace_log msg arg s : trace (log msg arg s) = [Log msg arg].
Proof. done. Qed.

(** Reception waits the offset, and one bit period for each byte it reads. *)
Lemma waited_onewire_cb_receive s :
  waited (trace (onewire_cb_receive s)) =
  sample_offset_of ONE_PERIOD_US
  + ONE_PERIOD_US * Z.of_nat (length (sampled (trace (onewire_cb_receive s)))).
Proof.
  rewrite sampled_onewire_cb_receive, result_onewire_cb_receive.
  pose proof (result_onewire_read_byte_range
    (final (k_busy_wait (ONE_PERIOD_US + HALF_PERIOD_US) s))) as Hr.
  unfold onewire_cb_receive.
  rewrite !trace_bind, !waited_app, waited_onewire_read_byte, trace_k_busy_wait,
    trace_mret.
  change (waited [BusyWait (ONE_PERIOD_US + HALF_PERIOD_US)])
    with (sample_offset_of ONE_PERIOD_US + 0).
  change (waited []) with 0.
  case_bool_decide.
  - unfold for_upto. rewrite (waited_for_loop _ ONE_PERIOD_US).
    + rewrite Z2Nat.id by lia. lia.
    + intros j s'. rewrite trace_bind, waited_app, waited_onewire_read_byte.
      unfold store_position_state. rewrite trace_modify_position_state.
      change (waited []) with 0. lia.
  - rewrite trace_log. change (waited [Log _ _]) with 0. lia.
Qed.

Lemma timed_read_bits n i byte : timed (read_bits n i byte).
Proof.
  revert i byte. induction n as [|n IH]; intros i byte; cbn [read_bits].
  - apply timed_ret.
  - apply timed_bind; [timed_prim|intros pin_value].
    apply timed_bind.
    + case_bool_decide; [apply timed_ret|].
      apply timed_bind; [timed_prim|intros _; apply timed_ret].
    + intros b. apply timed_bind; [apply timed_k_busy_wait|intros _; apply IH].
Qed.

Lemma timed_onewire_cb_receive : timed onewire_cb_receive.
Proof.
  unfold onewire_cb_receive, for_upto, onewire_read_byte.
  apply timed_bind; [apply timed_k_busy_wait|intros _].
  apply timed_bind; [apply timed_read_bits|intros data_length].
  apply timed_bind; [|intros _; apply timed_ret].
  case_bool_decide; [|timed_prim].
  apply timed_for_loop. intros i.
  apply timed_bind; [apply timed_read_bits|intros b]. timed_prim.
Qed.

Lemma uptime_onewire_cb_diff data s :
  uptime_us (final (onewire_cb_diff data s)) = uptime_us s.
Proof.
  unfold onewire_cb_diff. rewrite final_bind, (proj1 (onewire_cb_raise_run _ _)).
  apply keeps_update_loop. intros j g s'. unfold modify_position_state.
  by case_match.
Qed.

(** The trace of the callback, part by part. *)
Lemma trace_onewire_cb data s :
  trace (onewire_cb data s) =
  [IntConfigure GPIO_INT_DISABLE]
  ++ trace (onewire_cb_receive (set_int_mode GPIO_INT_DISABLE s))
  ++ trace (onewire_cb_diff data
              (final (onewire_cb_receive (set_int_mode GPIO_INT_DISABLE s))))
  ++ [IntConfigure GPIO_INT_EDGE_TO_INACTIVE].
Proof. unfold onewire_cb. by rewrite !trace_bind. Qed.

Lemma quiet_onewire_cb_diff data s :
  driven (trace (onewire_cb_diff data s)) = []
  ∧ sampled (trace (onewire_cb_diff data s)) = []
  ∧ waited (trace (onewire_cb_diff data s)) = 0.
Proof. apply logs_or_raises_quiet, emits_onewire_cb_diff_logs_or_raises. Qed.

Lemma sampled_onewire_cb data s :
  sampled (trace (onewire_cb data s)) =
  sampled (trace (onewire_cb_receive (set_int_mode GPIO_INT_DISABLE s))).
Proof.
  rewrite trace_onewire_cb, !sampled_app.
  rewrite (proj1 (proj2 (quiet_onewire_cb_diff _ _))). simpl. by rewrite app_nil_r.
Qed.

Lemma sampled_onewire_cb_count data s :
  (1 ≤ length (sampled (trace (onewire_cb data s))) ≤ 16)%nat.
Proof.
  rewrite sampled_onewire_cb.
  pose proof (sampled_onewire_cb_receive (set_int_mode GPIO_INT_DISABLE s)) as Hn.
  pose proof (result_onewire_read_byte_range
    (final (k_busy_wait (ONE_PERIOD_US + HALF_PERIOD_US)
              (set_int_mode GPIO_INT_DISABLE s)))) as Hr.
  rewrite result_onewire_cb_receive in Hn.
  change sizeof_position_state with 16 in Hn.
  case_bool_decide; lia.
Qed.

(** X11: the callback never drives the line, and it samples it at most 16
    times: once for the length and at most 15 times for the payload. *)
Theorem X11_callback_never_drives_and_samples_at_most_16_times
    (data : list Z) (s : board) :
  driven (trace (onewire_cb data s)) = []
  ∧ (1 ≤ length (sampled (trace (onewire_cb data s))) ≤ 16)%nat.
Proof.
  split; [|apply sampled_onewire_cb_count].
  rewrite trace_onewire_cb, !driven_app.
  rewrite (proj1 (quiet_onewire_cb_diff _ _)).
  by rewrite (samples_waits_or_logs_driven _ (emits_onewire_cb_receive _)).
Qed.

(** X12: the callback keeps the processor for the offset of 75
    microseconds and one bit period of 50 for each sample it takes: between
    125 and 875 microseconds. *)
Theorem X12_callback_duration (data : list Z) (s : board) :
  uptime_us (final (onewire_cb data s)) =
    uptime_us s + 75 + 50 * Z.of_nat (length (sampled (trace (onewire_cb data s))))
  ∧ uptime_us s + 125 ≤ uptime_us (final (onewire_cb data s)) ≤ uptime_us s + 875.
Proof.
  assert (uptime_us (final (onewire_cb data s)) =
    uptime_us s + 75 + 50 * Z.of_nat (length (sampled (trace (onewire_cb data s)))))
    as Heq.
  { rewrite final_onewire_cb, sampled_onewire_cb.
    change (uptime_us (set_int_mode ?m ?b)) with (uptime_us b).
    rewrite uptime_onewire_cb_diff, timed_onewire_cb_receive, waited_onewire_cb_receive.
    change (uptime_us (set_int_mode ?m ?b)) with (uptime_us b).
    change (sample_offset_of ONE_PERIOD_US) with 75. change ONE_PERIOD_US with 50.
    lia. }
  split; [exact Heq|]. rewrite Heq.
  pose proof (sampled_onewire_cb_count data s). lia.
Qed.

(** ** The events of the callback, whatever it is given *)

Lemma raised_onewire_cb_raise_filter changed s :
  raised (trace (onewire_cb_raise changed s)) =
  event_at s <$> filter (changed_at changed) (seqZ 0 128).
Proof.
  rewrite raised_onewire_cb_raise, <- bind_if_filter.
  change 128 with (Z.of_nat 16 * 8). rewrite <- bind_seqZ_blocks.
  change (Z.of_nat 16) with 16.
  apply Forall_bind_ext, Forall_seqZ. intros i Hi.
  apply Forall_bind_ext, Forall_seqZ. intros j Hj.
  rewrite (proj2 (onewire_cb_raise_bit_run _ i j _)).
  destruct (position_div_mod i j ltac:(lia)) as [Hd Hm].
  rewrite (bool_decide_ext (changed_at changed (i * 8 + j))
             (Z.land (data_at changed i) (BIT j) ≠ 0))
    by (unfold changed_at; by rewrite Hd, Hm).
  unfold event_at. by rewrite Hd, Hm.
Qed.

Lemma raised_onewire_cb data s :
  raised (trace (onewire_cb data s)) =
  raised (trace (onewire_cb_diff data
                   (final (onewire_cb_receive (set_int_mode GPIO_INT_DISABLE s))))).
Proof.
  rewrite trace_onewire_cb, !raised_app.
  rewrite (samples_waits_or_logs_raised _ (emits_onewire_cb_receive _)).
  simpl. by rewrite app_nil_r.
Qed.

Lemma raised_onewire_cb_diff_filter data s :
  raised (trace (onewire_cb_diff data s)) =
  event_at (final (onewire_cb_update data s))
    <$> filter (changed_at (result (onewire_cb_update data s))) (seqZ 0 128).
Proof.
  unfold onewire_cb_diff. rewrite trace_bind, raised_app.
  rewrite (emits_False_nil (onewire_cb_update data) s)
    by apply emits_update_loop.
  apply raised_onewire_cb_raise_filter.
Qed.

Lemma position_event_at s (l : list Z) : position <$> (event_at s <$> l) = l.
Proof. rewrite <- list_fmap_compose. rewrite <- (list_fmap_id l) at 2. done. Qed.

(** X13: whatever the line carried and whatever the buffer holds, the
    events of one callback come in strictly ascending order of position, with
    positions from 0 to 127: no position is reported twice, and at most 128
    events are raised. *)
Theorem X13_events_ascend_whatever_the_input (data : list Z) (s : board) :
  StronglySorted Z.lt (position <$> raised (trace (onewire_cb data s)))
  ∧ Forall (λ ev, 0 ≤ position ev < 128) (raised (trace (onewire_cb data s)))
  ∧ (length (raised (trace (onewire_cb data s))) ≤ 128)%nat.
Proof.
  rewrite raised_onewire_cb, raised_onewire_cb_diff_filter. split; [|split].
  - rewrite position_event_at. apply StronglySorted_filter, StronglySorted_seqZ.
  - apply Forall_fmap, Forall_forall.
    intros p [_ Hp%elem_of_seqZ]%list_elem_of_filter. simpl. lia.
  - rewrite length_fmap.
    etrans; [apply length_filter|]. by rewrite length_seqZ.
Qed.

(** X14: a diff repeated with the same bitmap is silent: the first run left
    the bitmap in [position_state], so the second finds nothing changed and
    raises no event. *)
Theorem X14_repeated_diff_raises_nothing (data : list Z) (s : board) :
  is_bitmap data → length (position_state s) = 16%nat →
  raised (trace (onewire_cb_diff data (final (onewire_cb_diff data s)))) = []
  ∧ position_state (final (onewire_cb_diff data (final (onewire_cb_diff data s)))) = data.
Proof.
  intros Hdata Hlen.
  pose proof (final_onewire_cb_diff data s Hdata Hlen) as Hfin.
  split.
  - rewrite raised_onewire_cb_diff by (by rewrite ?Hfin). rewrite Hfin.
    by rewrite (proj2 (differing_nil_iff data data Hdata Hdata) eq_refl).
  - apply final_onewire_cb_diff; [done|]. rewrite Hfin. apply Hdata.
Qed.

Lemma X14_witness :
  raised (trace (onewire_cb_diff [8; 4; 0; 0; 0; 0; 0; 0; 0; 0; 0; 0; 0; 0; 0; 0]
                   (final (onewire_cb_diff
                             [8; 4; 0; 0; 0; 0; 0; 0; 0; 0; 0; 0; 0; 0; 0; 0]
                             board_init)))) = []
  ∧ position_state
      (final (onewire_cb_diff [8; 4; 0; 0; 0; 0; 0; 0; 0; 0; 0; 0; 0; 0; 0; 0]
                (final (onewire_cb_diff
                          [8; 4; 0; 0; 0; 0; 0; 0; 0; 0; 0; 0; 0; 0; 0; 0]
                          board_init))))
    = [8; 4; 0; 0; 0; 0; 0; 0; 0; 0; 0; 0; 0; 0; 0; 0].
Proof.
  apply (X14_repeated_diff_raises_nothing
           [8; 4; 0; 0; 0; 0; 0; 0; 0; 0; 0; 0; 0; 0; 0; 0] board_init).
  - split; [reflexivity|]. repeat constructor; lia.
  - reflexivity.
Defined.

(** ** The events played back *)

(** The bitmap after a list of positions has been played back, each with
    the bit a bitmap [new] has there. *)
Lemma replay_bits new now (l : list Z) s :
  is_bitmap (position_state s) → Forall (λ p, 0 ≤ p < 128) l →
  is_bitmap (position_state
               (replay s ((λ p, mk_position_state_changed p (bitmap_bit new p) now) <$> l)))
  ∧ ∀ q, 0 ≤ q < 128 →
      bitmap_bit (position_state
                    (replay s ((λ p, mk_position_state_changed p (bitmap_bit new p) now)
                                 <$> l))) q
      = if bool_decide (q ∈ l) then bitmap_bit new q else bitmap_bit (position_state s) q.
Proof.
  intros Hbm Hl. revert s Hbm. induction Hl as [|p l Hp Hl IH]; intros s Hbm.
  - split; [done|]. intros q Hq. rewrite bool_decide_eq_false_2; [done|].
    apply not_elem_of_nil.
  - unfold replay. cbn [fmap list_fmap foldl state position].
    pose proof (is_bitmap_zmk_split_onewire_position (bitmap_bit new p) p s Hp Hbm)
      as Hbm1.
    destruct (IH _ Hbm1) as [IHbm IHbits]. split; [exact IHbm|].
    intros q Hq. unfold replay in IHbits. rewrite IHbits by done.
    rewrite bitmap_bit_zmk_split_onewire_position by done.
    rewrite (bool_decide_ext (q ∈ p :: l) (q = p ∨ q ∈ l)) by apply elem_of_cons.
    repeat case_bool_decide; subst; try done; exfalso; tauto.
Qed.

(** X15: the events of a diff, played back as calls to the entry points of
    the transmitter on a board that holds the old bitmap, leave the new
    bitmap: what the central reports is what the peripheral would have to do
    to get from the one to the other. *)
Theorem X15_events_played_back_give_the_new_bitmap (new : list Z) (s : board) :
  is_bitmap (position_state s) → is_bitmap new →
  position_state (replay s (raised (trace (onewire_cb_diff new s)))) = new.
Proof.
  intros Hold Hnew. rewrite raised_onewire_cb_diff by done.
  assert (Forall (λ p, 0 ≤ p < 128) (differing (position_state s) new)) as Hrange.
  { apply Forall_forall. by intros p [? _]%elem_of_differing. }
  destruct (replay_bits new (uptime_us s `div` 1000) _ s Hold Hrange) as [Hbm Hbits].
  apply bitmap_ext; [done..|]. intros q Hq. rewrite Hbits by done.
  case_bool_decide as Hin; [done|].
  destruct (decide (bitmap_bit (position_state s) q = bitmap_bit new q)); [done|].
  exfalso. apply Hin. by apply elem_of_differing.
Qed.

Lemma X15_witness :
  position_state
    (replay board_init
       (raised (trace (onewire_cb_diff [8; 4; 0; 0; 0; 0; 0; 0; 0; 0; 0; 0; 0; 0; 0; 0]
                         board_init))))
  = [8; 4; 0; 0; 0; 0; 0; 0; 0; 0; 0; 0; 0; 0; 0; 0].
Proof.
  apply (X15_events_played_back_give_the_new_bitmap
           [8; 4; 0; 0; 0; 0; 0; 0; 0; 0; 0; 0; 0; 0; 0; 0] board_init).
  - apply is_bitmap_board_init.
  - split; [reflexivity|]. repeat constructor; lia.
Defined.

(** ** When the line is sampled *)

Lemma sample_times_app t1 t2 now :
  sample_times (t1 ++ t2) now =
  sample_times t1 now ++ sample_times t2 (now + waited t1).
Proof.
  revert now. induction t1 as [|op t1 IH]; intros now.
  - simpl. by rewrite Z.add_0_r.
  - destruct op; simpl; rewrite IH; try done. do 2 f_equal. lia.
Qed.

Lemma sample_times_onewire_read_byte s now :
  sample_times (trace (onewire_read_byte s)) now = [now].
Proof.
  rewrite onewire_read_byte_eq. unfold trace; simpl. by case_bool_decide.
Qed.

Lemma sample_times_for_loop body (c : Z) :
  (∀ j s now, sample_times (trace (body j s)) now = [now]) →
  (∀ j s, waited (trace (body j s)) = c) →
  ∀ n i s now,
    sample_times (trace (for_loop n i body s)) now =
    (λ k, now + c * k) <$> seqZ 0 (Z.of_nat n).
Proof.
  intros Hs Hw. induction n as [|n IH]; intros i s now; [done|].
  cbn [for_loop]. rewrite trace_bind, sample_times_app, Hs, Hw, IH.
  rewrite (seqZ_cons 0 (Z.of_nat (S n))) by lia. rewrite fmap_cons.
  replace (Z.pred (Z.of_nat (S n))) with (Z.of_nat n) by lia.
  change (Z.succ 0) with (1 + 0). rewrite <- fmap_add_seqZ, <- list_fmap_compose.
  simpl. f_equal; [lia|]. apply list_fmap_ext. intros _ k _. simpl. lia.
Qed.

Lemma sample_times_onewire_cb_receive s now :
  sample_times (trace (onewire_cb_receive s)) now =
  (λ k, now + ONE_PERIOD_US * (k + 1) + HALF_PERIOD_US)
    <$> seqZ 0 (Z.of_nat (length (sampled (trace (onewire_cb_receive s))))).
Proof.
  rewrite sampled_onewire_cb_receive, result_onewire_cb_receive.
  pose proof (result_onewire_read_byte_range
    (final (k_busy_wait (ONE_PERIOD_US + HALF_PERIOD_US) s))) as Hr.
  unfold onewire_cb_receive.
  rewrite !trace_bind, !sample_times_app, sample_times_onewire_read_byte,
    waited_onewire_read_byte, trace_k_busy_wait, trace_mret.
  change (sample_times [BusyWait _] now) with (@nil Z).
  change (waited [BusyWait (ONE_PERIOD_US + HALF_PERIOD_US)]) with 75.
  change ONE_PERIOD_US with 50 in *. change HALF_PERIOD_US with 25 in *.
  rewrite app_nil_l. cbn [sample_times]. rewrite app_nil_r.
  set (r := result (onewire_read_byte (final (k_busy_wait (50 + 25) s)))) in *.
  case_bool_decide.
  - unfold for_upto. rewrite (sample_times_for_loop _ 50).
    + rewrite Z2Nat.id by lia.
      rewrite (seqZ_cons 0 (1 + r)) by lia. rewrite fmap_cons. simpl app.
      f_equal; [lia|].
      replace (Z.pred (1 + r)) with r by lia.
      change (Z.succ 0) with (1 + 0). rewrite <- fmap_add_seqZ, <- list_fmap_compose.
      apply list_fmap_ext. intros _ k _. simpl. lia.
    + intros j s' now'.
      rewrite trace_bind, sample_times_app, sample_times_onewire_read_byte.
      unfold store_position_state. by rewrite trace_modify_position_state.
    + intros j s'. rewrite trace_bind, waited_app, waited_onewire_read_byte.
      unfold store_position_state. by rewrite trace_modify_position_state.
  - rewrite trace_log. simpl. f_equal. lia.
Qed.

(** X16: sample number [k] of a callback is taken [k + 1] bit periods and
    half a bit period after the callback is entered: with the falling edge
    as the start of a start bit, every sample falls in the middle of a bit,
    the first one in the middle of the bit that follows the start bit. *)
Theorem X16_samples_fall_in_the_middle_of_a_bit
    (data : list Z) (s : board) (now : Z) :
  sample_times (trace (onewire_cb data s)) now =
  (λ k, now + ONE_PERIOD_US * (k + 1) + HALF_PERIOD_US)
    <$> seqZ 0 (Z.of_nat (length (sampled (trace (onewire_cb data s))))).
Proof.
  rewrite sampled_onewire_cb, trace_onewire_cb, !sample_times_app.
  rewrite sample_times_onewire_cb_receive.
  assert (∀ t now', Forall logs_or_raises t → sample_times t now' = []) as Hquiet.
  { intros t now'. induction 1 as [|op t Hop _ IH]; [done|]. by destruct op. }
  rewrite (Hquiet _ _ (emits_onewire_cb_diff_logs_or_raises _ _)).
  simpl. rewrite Z.add_0_r. by rewrite !app_nil_r.
Qed.

(** ** What reception overwrites *)

Lemma position_state_onewire_read_byte s :
  position_state (final (onewire_read_byte s)) = position_state s.
Proof. by rewrite onewire_read_byte_eq. Qed.

(** X17: reception overwrites a prefix of [position_state] only: the cells
    from the length read onwards are left as they were, and all of them when
    the length is 16 or more. *)
Theorem X17_reception_overwrites_a_prefix_only (s : board) :
  (∀ k, 0 ≤ k → result (onewire_cb_receive s) ≤ k →
        data_at (position_state (final (onewire_cb_receive s))) k
        = data_at (position_state s) k)
  ∧ (sizeof_position_state ≤ result (onewire_cb_receive s) →
     position_state (final (onewire_cb_receive s)) = position_state s).
Proof.
  split; [|intros Hlong; by apply onewire_cb_receive_too_long].
  intros k Hk Hlen. rewrite result_onewire_cb_receive in Hlen.
  unfold onewire_cb_receive. rewrite !final_bind.
  set (s1 := final (k_busy_wait (ONE_PERIOD_US + HALF_PERIOD_US) s)) in *.
  set (r := result (onewire_read_byte s1)) in *.
  case_bool_decide as Hlt.
  - unfold for_upto.
    apply (for_loop_invariant
      (λ b, data_at (position_state b) k = data_at (position_state s) k)).
    + intros j s' Hj Hs'. rewrite final_bind, data_at_store by lia.
      rewrite bool_decide_eq_false_2 by lia.
      by rewrite position_state_onewire_read_byte.
    + by rewrite position_state_onewire_read_byte.
  - change (data_at (position_state (final (onewire_read_byte s1))) k
            = data_at (position_state s) k).
    by rewrite position_state_onewire_read_byte.
Qed.

(** * The frame on the line *)

Lemma length_driven_zmk_split_onewire_position v position s :
  length (driven (trace (zmk_split_onewire_position v position s))) = 19%nat.
Proof.
  destruct (trace_zmk_split_onewire_position_cells v position s) as (l & Hl & ->).
  rewrite driven_frame_trace. cbn [length].
  by rewrite length_app, length_fmap, Hl.
Qed.

(** C5: what the code puts on the line for a call. The 18 bytes of the
    frame (start symbol, length 16, the 16 bytes of [position_state]) are
    handed to [onewire_send_byte] one after the other, and each of them
    leaves one level on the line, its bit 0: every call drives 19 levels,
    the idle level included, where 18 bytes would take 144. The length 16 is
    the one level 0, as a length of 0 would be, and the byte 8 that pressing
    position 3 leaves in the bitmap is the one level 0, as the byte 0 was:
    neither the value of the length byte nor the bytes of the bitmap are on
    the line. *)
Theorem C5_frame_on_the_line_is_one_level_per_byte :
  (∀ position s,
     length (driven (trace (zmk_split_onewire_position_pressed position s))) = 19%nat
     ∧ length (driven (trace (zmk_split_onewire_position_released position s))) = 19%nat)
  ∧ (trace (onewire_send_byte 16 board_init) = [PinSet 0; BusyWait 50]
     ∧ trace (onewire_send_byte 0 board_init) = [PinSet 0; BusyWait 50]
     ∧ trace (onewire_send_byte 8 board_init) = [PinSet 0; BusyWait 50])
  ∧ (position_state (final (zmk_split_onewire_position_pressed 3 board_init)) =
       [8; 0; 0; 0; 0; 0; 0; 0; 0; 0; 0; 0; 0; 0; 0; 0]
     ∧ trace (zmk_split_onewire_position_pressed 3 board_init) =
       [PinSet 1; BusyWait 50; PinSet 0; BusyWait 50;
        PinSet 0; BusyWait 50; PinSet 0; BusyWait 50; PinSet 0; BusyWait 50;
        PinSet 0; BusyWait 50; PinSet 0; BusyWait 50; PinSet 0; BusyWait 50;
        PinSet 0; BusyWait 50; PinSet 0; BusyWait 50; PinSet 0; BusyWait 50;
        PinSet 0; BusyWait 50; PinSet 0; BusyWait 50; PinSet 0; BusyWait 50;
        PinSet 0; BusyWait 50; PinSet 0; BusyWait 50; PinSet 0; BusyWait 50;
        PinSet 0; BusyWait 50; PinSet 1]
     ∧ driven (trace (zmk_split_onewire_position_pressed 3 board_init)) =
       driven (trace (send_onewire_data sizeof_position_state board_init))).
Proof.
  split; [|repeat split; reflexivity].
  intros position s. split.
  - apply (length_driven_zmk_split_onewire_position true).
  - apply (length_driven_zmk_split_onewire_position false).
Qed.
